(** * The AMQP consuming connector of zato (zato/server/amqp/channel.py)

    A shallow embedding of [ConsumingConnection] and [ConsumingConnector]
    and the properties of their lifecycle, control filter, forwarder and
    acknowledgement discipline. *)

From Stdlib Require Import Ascii.
From stdpp Require Import gmap strings list fin_maps pretty.

Open Scope string_scope.
Open Scope list_scope.

(** ** Python values, as far as the module handles them *)

Inductive PyVal :=
| PyNone
| PyBool (b : bool)
| PyInt (z : Z)
| PyStr (s : string).

(** Python truthiness of a value, as tested by [if] and [elif]. *)
Definition truthy (v : PyVal) : bool :=
  match v with
  | PyNone => false
  | PyBool b => b
  | PyInt z => negb (Z.eqb z 0)
  | PyStr s => negb (String.eqb s "")
  end.

(** ** Locks, object references and observable events *)

Inductive Lock := out_amqp_lock | def_amqp_lock | channel_amqp_lock.

#[global] Instance Lock_eq_dec : EqDecision Lock.
Proof. solve_decision. Defined.

(** A reference to a [ConsumingConnection] object in the object store. *)
Abbreviation ref := nat.

Inductive Event :=
| EvAcquire (l : Lock)                       (* entering [with l:] *)
| EvRelease (l : Lock)                       (* leaving [with l:] *)
| EvThreadStart (r : ref)                    (* [Thread(target=consumer._run).start()] *)
| EvClose (r : ref)                          (* [consumer.close()] *)
| EvBasicConsume (queue tag : string)        (* [channel.basic_consume] *)
| EvBasicAck (channel : nat) (tag : Z)       (* [channel.basic_ack] *)
| EvSendJson (params : gmap string PyVal) (msg_type : string)
| EvLog (level : string) (text : string).

(** ** Effects: state, raised exceptions and an event trace

    A computation runs on a state [S], returns a value or raises, and
    emits the events it performs, in order.  A raise keeps the state
    reached and the events emitted so far, as Python does. *)

Inductive outcome (A : Type) :=
| Ok (a : A)
| Raise (exn : string).
Arguments Ok {A} a.
Arguments Raise {A} exn.

Definition M (S A : Type) : Type := S -> outcome A * S * list Event.

Definition ret {S A} (a : A) : M S A := fun s => (Ok a, s, []).

Definition bind {S A B} (m : M S A) (k : A -> M S B) : M S B :=
  fun s =>
    match m s with
    | (Ok a, s1, e1) =>
        match k a s1 with
        | (r, s2, e2) => (r, s2, e1 ++ e2)
        end
    | (Raise x, s1, e1) => (Raise x, s1, e1)
    end.

Definition emit {S} (e : Event) : M S unit := fun s => (Ok tt, s, [e]).
Definition get {S} : M S S := fun s => (Ok s, s, []).
Definition put {S} (s : S) : M S unit := fun _ => (Ok tt, s, []).
Definition raise {S A} (x : string) : M S A := fun s => (Raise x, s, []).

Notation "x <- m ;; k" := (bind m (fun x => k))
  (at level 100, m at next level, right associativity).
Notation "m ;;; k" := (bind m (fun _ => k))
  (at level 100, right associativity).

(** [with l: body]: the lock is released on the way out, also when the
    body raises. *)
Definition with_lock {S A} (l : Lock) (body : M S A) : M S A :=
  fun s =>
    match body s with
    | (r, s1, e1) => (r, s1, [EvAcquire l] ++ e1 ++ [EvRelease l])
    end.

Definition result_of {S A} (x : outcome A * S * list Event) : outcome A := x.1.1.
Definition state_of {S A} (x : outcome A * S * list Event) : S := x.1.2.
Definition events_of {S A} (x : outcome A * S * list Event) : list Event := x.2.

(** ** Strings: [str.ljust] and [str.format] of the consumer tag *)

Fixpoint fill (n : nat) (c : Ascii.ascii) : string :=
  match n with
  | O => ""
  | S n' => String c (fill n' c)
  end.

(** [s.ljust(width, c)]: [s] itself when it is already [width] long or
    longer, else [s] followed by copies of [c] up to [width]. *)
Definition ljust (s : string) (width : nat) (c : Ascii.ascii) : string :=
  if decide (width ≤ String.length s)%nat then s
  else s +:+ fill (width - String.length s) c.


(** The tag of [consume]:
    ['{0}:{1}:{2}:{3}:{4}'.format(prefix, ip, fqdn, pid, rnd).ljust(72, '0')].
    [pid] and [rnd] are Python ints, formatted in decimal. *)
Definition format_tag (prefix ip fqdn : string) (pid rnd : N) : string :=
  prefix +:+ ":" +:+ ip +:+ ":" +:+ fqdn +:+ ":" +:+ pretty pid +:+ ":" +:+ pretty rnd.

Definition consumer_tag (prefix ip fqdn : string) (pid rnd : N) : string :=
  ljust (format_tag prefix ip fqdn pid rnd) 72 "0"%char.

(** [x if x else y] on an optional string argument: [None] and the
    empty string are falsy. *)
Definition or_else (x : option string) (y : string) : string :=
  match x with
  | Some s => if truthy (PyStr s) then s else y
  | None => y
  end.

(** ** Frames of a delivery and the broker connection *)

Record MethodFrame := { delivery_tag : Z }.
Record HeaderFrame := { headers : list (string * string) }.

(** The pika connection object, as far as this module reads it. *)
Record Connection := { is_open : bool }.

(** What the host answers to [gethostbyname(gethostname())], [getfqdn()]
    and [getpid()]. *)
Record Host := { host_ip : string; host_fqdn : string; host_pid : N }.

(** ** class ConsumingConnection *)

Module ConsumingConnection.

Record t {CB : Type} := {
  conn_params : string;
  channel_name : string;
  queue : string;
  consumer_tag_prefix : string;
  callback : CB;
  conn : option Connection;
  closed : bool                (* ghost: [close()] has taken effect *)
}.
Arguments t : clear implicits.

(** Modelled from the spec: [BaseConnection.__init__] is not part of
    the sources.  The connection is established later, by the thread
    that runs the object, so a new object has none yet. *)
Definition __init__ {CB} (conn_params channel_name queue consumer_tag_prefix : string)
    (callback : CB) : t CB :=
  {| conn_params := conn_params; channel_name := channel_name; queue := queue;
     consumer_tag_prefix := consumer_tag_prefix; callback := callback;
     conn := None; closed := false |}.

Definition set_conn {CB} (k : option Connection) (self : t CB) : t CB :=
  {| conn_params := conn_params self; channel_name := channel_name self;
     queue := queue self; consumer_tag_prefix := consumer_tag_prefix self;
     callback := callback self; conn := k; closed := closed self |}.

Definition set_closed {CB} (b : bool) (self : t CB) : t CB :=
  {| conn_params := conn_params self; channel_name := channel_name self;
     queue := queue self; consumer_tag_prefix := consumer_tag_prefix self;
     callback := callback self; conn := conn self; closed := b |}.

(** Modelled from the spec: [BaseConnection.close] is not part of the
    sources.  Closing an open connection closes it; closing an
    already-closed or never-opened one is a no-op, never an error. *)
Definition close {CB} (self : t CB) : t CB :=
  match conn self with
  | Some k => if is_open k then set_closed true (set_conn (Some {| is_open := false |}) self)
              else self
  | None => self
  end.

Section Methods.
Context {U CB : Type}.
(** How a stored callback is called on the state [U] it acts on. *)
Variable invoke : CB -> MethodFrame -> HeaderFrame -> string -> M U unit.
(** [self._conn_info()], of the base class. *)
Variable _conn_info : t CB -> string.

Definition _on_basic_consume (self : t CB) (channel : nat)
    (method_frame : MethodFrame) (header_frame : HeaderFrame) (body : string)
    : M U unit :=
  invoke (callback self) method_frame header_frame body ;;;
  emit (EvBasicAck channel (delivery_tag method_frame)).

Definition repr_opt (x : option string) : string :=
  match x with Some s => s | None => "None" end.

Definition consume (self : t CB) (host : Host) (getrandbits64 : N)
    (queue' consumer_tag_prefix' : option string) : M U unit :=
  let _queue := or_else queue' (queue self) in
  let _consumer_tag_prefix := or_else consumer_tag_prefix' (consumer_tag_prefix self) in
  let consumer_tag :=
    consumer_tag _consumer_tag_prefix (host_ip host) (host_fqdn host)
                 (host_pid host) getrandbits64 in
  emit (EvBasicConsume _queue consumer_tag) ;;;
  emit (EvLog "debug"
    ("Started a consumer for [" +:+ _conn_info self +:+ "], queue [" +:+
     repr_opt queue' +:+ "], tag [" +:+ consumer_tag +:+ "]")).
End Methods.

End ConsumingConnection.

(** ** The connector's data *)

(** The row [odb.get_channel_amqp] returns. *)
Module Item.
Record t := {
  id : Z;
  name : string;
  is_active : bool;
  queue : string;
  consumer_tag_prefix : string;
  service_name : string
}.
End Item.

(** A control message of the broker: the action code and the channel's
    attributes, all in one attribute bag. *)
Module Msg.
Record t := {
  action : string;
  id : Z;
  name : string;
  is_active : bool;
  queue : string;
  consumer_tag_prefix : string;
  service : string
}.
End Msg.

(** [self.channel_amqp]: the attribute bag of the channel.  [consumer] is
    what [channel_amqp.get('consumer')] gives: [None] when the key is
    absent or holds [None], else the reference to the object. *)
Module Bunch.
Record t := {
  id : Z;
  name : string;
  is_active : bool;
  queue : string;
  consumer_tag_prefix : string;
  service : string;
  consumer : option ref
}.

Definition set_consumer (c : option ref) (b : t) : t :=
  {| id := id b; name := name b; is_active := is_active b; queue := queue b;
     consumer_tag_prefix := consumer_tag_prefix b; service := service b;
     consumer := c |}.

(** The bag built attribute by attribute in [_setup_odb]. *)
Definition of_item (item : Item.t) : t :=
  {| id := Item.id item; name := Item.name item; is_active := Item.is_active item;
     queue := Item.queue item; consumer_tag_prefix := Item.consumer_tag_prefix item;
     service := Item.service_name item; consumer := None |}.

(** A control message taken as the channel's bag
    ([self.channel_amqp = msg]). *)
Definition of_msg (msg : Msg.t) : t :=
  {| id := Msg.id msg; name := Msg.name msg; is_active := Msg.is_active msg;
     queue := Msg.queue msg; consumer_tag_prefix := Msg.consumer_tag_prefix msg;
     service := Msg.service msg; consumer := None |}.
End Bunch.

(** The bound method stored as the callback of the connector's
    consumers. *)
Inductive BoundMethod := self_on_amqp_message.

Abbreviation Consumer := (ConsumingConnection.t BoundMethod).

(** ** class ConsumingConnector

    The object store [heap] holds every [ConsumingConnection] the
    connector has created; each one is shared between the connector and
    the thread that runs it. *)
Record Connector := {
  channel_id : Z;
  amqp_conn_params : string;          (* what [self._amqp_conn_params()] returns *)
  logger_trace1 : bool;               (* [self.logger.isEnabledFor(TRACE1)] *)
  rid_calls : nat;                    (* calls of [new_rid()] made so far *)
  channel_amqp : Bunch.t;
  heap : list Consumer
}.

Definition set_channel_amqp (b : Bunch.t) (self : Connector) : Connector :=
  {| channel_id := channel_id self; amqp_conn_params := amqp_conn_params self;
     logger_trace1 := logger_trace1 self; rid_calls := rid_calls self;
     channel_amqp := b; heap := heap self |}.

Definition set_heap (h : list Consumer) (self : Connector) : Connector :=
  {| channel_id := channel_id self; amqp_conn_params := amqp_conn_params self;
     logger_trace1 := logger_trace1 self; rid_calls := rid_calls self;
     channel_amqp := channel_amqp self; heap := h |}.

Definition set_rid_calls (n : nat) (self : Connector) : Connector :=
  {| channel_id := channel_id self; amqp_conn_params := amqp_conn_params self;
     logger_trace1 := logger_trace1 self; rid_calls := n;
     channel_amqp := channel_amqp self; heap := heap self |}.

(** The object [self.channel_amqp.get('consumer')] refers to. *)
Definition consumer_obj (self : Connector) : option Consumer :=
  match Bunch.consumer (channel_amqp self) with
  | Some r => heap self !! r
  | None => None
  end.

(** The guard of [_stop_amqp_connection]:
    [consumer and consumer.conn and consumer.conn.is_open]. *)
Definition stoppable (c : Consumer) : bool :=
  match ConsumingConnection.conn c with
  | Some k => is_open k
  | None => false
  end.

(** [_setup_odb], after the base class has opened the database: the
    channel's attribute bag is built from the row [item]. *)
Definition _setup_odb (item : Item.t) (self : Connector) : Connector :=
  set_channel_amqp (Bunch.of_item item) self.

(** [self.channel_amqp.consumer.close()]. *)
Definition consumer_close (r : ref) : M Connector unit :=
  self <- get ;;
  match heap self !! r with
  | Some c =>
      put (set_heap (<[r := ConsumingConnection.close c]> (heap self)) self) ;;;
      emit (EvClose r)
  | None => ret tt
  end.

Definition _stop_amqp_connection : M Connector unit :=
  self <- get ;;
  match Bunch.consumer (channel_amqp self), consumer_obj self with
  | Some r, Some c => if stoppable c then consumer_close r else ret tt
  | _, _ => ret tt
  end.

Definition _amqp_consumer : M Connector ref :=
  self <- get ;;
  let consumer :=
    ConsumingConnection.__init__ (amqp_conn_params self)
      (Bunch.name (channel_amqp self)) (Bunch.queue (channel_amqp self))
      (Bunch.consumer_tag_prefix (channel_amqp self)) self_on_amqp_message in
  let r := length (heap self) in
  put (set_heap (heap self ++ [consumer]) self) ;;;
  emit (EvThreadStart r) ;;;
  ret r.

Definition _recreate_amqp_consumer : M Connector unit :=
  _stop_amqp_connection ;;;
  self <- get ;;
  if Bunch.is_active (channel_amqp self) then
    consumer <- _amqp_consumer ;;
    self <- get ;;
    put (set_channel_amqp (Bunch.set_consumer (Some consumer) (channel_amqp self)) self)
  else ret tt.

Definition _setup_amqp : M Connector unit :=
  with_lock out_amqp_lock
    (with_lock def_amqp_lock
       _recreate_amqp_consumer).

Definition _channel_amqp_create_edit (msg : Msg.t) (args : list PyVal) : M Connector unit :=
  with_lock def_amqp_lock
    (with_lock channel_amqp_lock
       (self <- get ;;
        let consumer := Bunch.consumer (channel_amqp self) in
        put (set_channel_amqp (Bunch.of_msg msg) self) ;;;
        self <- get ;;
        put (set_channel_amqp (Bunch.set_consumer consumer (channel_amqp self)) self) ;;;
        _recreate_amqp_consumer)).

Section Connector.
(** Constants of [zato.common.broker_message] and helpers of the base
    classes, none of them part of the sources. *)
Variables AMQP_EDIT AMQP_DELETE AMQP_MESSAGE_RECEIVED : string.
Variable TO_PARALLEL_PULL : string.
(** Truth value of [super(ConsumingConnector, self).filter(msg)]. *)
Variable super_filter : Connector -> Msg.t -> bool.
(** [str(msg)], used in the trace log line. *)
Variable repr_msg : Msg.t -> string.
(** The result of the n-th call of [new_rid()]. *)
Variable new_rid : nat -> string.
(** [self.broker_client.send_json(params, msg_type=...)]. *)
Variable send_json : gmap string PyVal -> string -> M Connector unit.
(** [self._close()], of the base connector. *)
Variable _close : M Connector unit.

(** The value [filter] returns: [True], [False], or [None] when the
    function falls off its end. *)
Definition filter (msg : Msg.t) : M Connector PyVal :=
  self <- get ;;
  if super_filter self msg then ret (PyBool true)
  else if decide (Msg.action msg ∈ [AMQP_EDIT; AMQP_DELETE]) then
    if decide (Bunch.id (channel_amqp self) = Msg.id msg) then ret (PyBool true)
    else ret PyNone
  else
    (if logger_trace1 self
     then emit (EvLog "TRACE1" ("Returning False for msg [" +:+ repr_msg msg +:+ "]"))
     else ret tt) ;;;
    ret (PyBool false).

Definition _on_amqp_message (method_frame : MethodFrame) (header_frame : HeaderFrame)
    (body : string) : M Connector unit :=
  self <- get ;;
  let params : gmap string PyVal := ∅ in
  let params := <["action" := PyStr AMQP_MESSAGE_RECEIVED]> params in
  let params := <["service" := PyStr (Bunch.service (channel_amqp self))]> params in
  let rid := new_rid (rid_calls self) in
  put (set_rid_calls (S (rid_calls self)) self) ;;;
  let params := <["rid" := PyStr rid]> params in
  let params := <["payload" := PyStr body]> params in
  send_json params TO_PARALLEL_PULL.

Definition on_broker_pull_msg_CHANNEL_AMQP_CREATE (msg : Msg.t) (args : list PyVal)
    : M Connector unit :=
  _channel_amqp_create_edit msg args.

Definition on_broker_pull_msg_CHANNEL_AMQP_EDIT (msg : Msg.t) (args : list PyVal)
    : M Connector unit :=
  _channel_amqp_create_edit msg args.

Definition on_broker_pull_msg_CHANNEL_AMQP_DELETE (msg : Msg.t) (args : list PyVal)
    : M Connector unit :=
  _close.

Definition on_broker_pull_msg_CHANNEL_AMQP_CLOSE (msg : Msg.t) (args : list PyVal)
    : M Connector unit :=
  _close.

(** Calling the callback a consumer of this connector stores. *)
Definition invoke (cb : BoundMethod) : MethodFrame -> HeaderFrame -> string -> M Connector unit :=
  match cb with
  | self_on_amqp_message => _on_amqp_message
  end.

(** A delivery reaching the consumer [r] on its channel. *)
Definition deliver (r : ref) (channel : nat) (method_frame : MethodFrame)
    (header_frame : HeaderFrame) (body : string) : M Connector unit :=
  self <- get ;;
  match heap self !! r with
  | Some c => ConsumingConnection._on_basic_consume invoke c channel method_frame header_frame body
  | None => ret tt
  end.
End Connector.

(** [send_json] of a broker client that accepts the message. *)
Definition send_json_ok (params : gmap string PyVal) (msg_type : string) : M Connector unit :=
  emit (EvSendJson params msg_type).

(** [ConsumingConnector.__init__] with [init=True], from the object
    [self0] as the base constructor leaves it and the row [item] the
    database returns: [_init()] loads the channel, [_setup_amqp()] starts
    its consumer. *)
Definition ConsumingConnector__init__ (self0 : Connector) (item : Item.t)
    : outcome unit * Connector * list Event :=
  _setup_amqp (_setup_odb item self0).

(** ** Notions the properties are stated with *)

(** A consumer is active from its creation (its thread is started with
    it) until a [close()] takes effect on it. *)
Definition running (self : Connector) (r : ref) : bool :=
  match heap self !! r with
  | Some c => negb (ConsumingConnection.closed c)
  | None => false
  end.

Definition active_consumers (self : Connector) : list ref :=
  List.filter (running self) (seq 0 (length (heap self))).

(** The consumer [c] was created from the channel attributes [b], with
    the connector's forwarder as its delivery callback. *)
Definition bound_to (c : Consumer) (b : Bunch.t) : Prop :=
  ConsumingConnection.channel_name c = Bunch.name b ∧
  ConsumingConnection.queue c = Bunch.queue b ∧
  ConsumingConnection.consumer_tag_prefix c = Bunch.consumer_tag_prefix b ∧
  ConsumingConnection.callback c = self_on_amqp_message.

(** The consumer [_stop_amqp_connection] closes, if any. *)
Definition stop_target (self : Connector) : option ref :=
  match Bunch.consumer (channel_amqp self), consumer_obj self with
  | Some r, Some c => if stoppable c then Some r else None
  | _, _ => None
  end.

(** No consumer to stop: none was ever created, or the connection of the
    one referred to is absent or not open. *)
Definition no_active_consumer (self : Connector) : Prop :=
  consumer_obj self = None ∨
  ∃ c, consumer_obj self = Some c ∧
       (ConsumingConnection.conn c = None ∨
        ConsumingConnection.conn c = Some {| is_open := false |}).

(** The locks held, innermost first, at each stop or start of a consumer
    in a trace; [acc] holds the locks taken so far. *)
Fixpoint held_at_lifecycle (evs : list Event) (acc : list Lock) : list (list Lock) :=
  match evs with
  | [] => []
  | EvAcquire l :: evs' => held_at_lifecycle evs' (l :: acc)
  | EvRelease l :: evs' =>
      held_at_lifecycle evs'
        (match acc with
         | l' :: acc' => if decide (l = l') then acc' else acc
         | [] => []
         end)
  | EvClose _ :: evs' => acc :: held_at_lifecycle evs' acc
  | EvThreadStart _ :: evs' => acc :: held_at_lifecycle evs' acc
  | _ :: evs' => held_at_lifecycle evs' acc
  end.

(** The acknowledgements in a trace. *)
Definition acks (evs : list Event) : list (nat * Z) :=
  omap (λ e, match e with EvBasicAck ch tag => Some (ch, tag) | _ => None end) evs.

(** Modelled from the spec: [BaseConnection._run] is not part of the
    sources.  The thread of a consumer that has not been closed
    establishes its connection, or loses it, at any moment. *)
Definition thread_sets_conn (r : ref) (k : Connection) (self : Connector) : Connector :=
  match heap self !! r with
  | Some c =>
      if ConsumingConnection.closed c then self
      else set_heap (<[r := ConsumingConnection.set_conn (Some k) c]> (heap self)) self
  | None => self
  end.

(** One step of the connector's life: a Create or Edit instruction is
    applied, or a consumer's thread changes its connection. *)
Inductive step : Connector -> Connector -> Prop :=
| step_create_edit msg args self :
    step self (state_of (_channel_amqp_create_edit msg args self))
| step_thread r k self :
    step self (thread_sets_conn r k self).

Inductive reachable : Connector -> Prop :=
| reach_init self0 item :
    heap self0 = [] ->
    reachable (state_of (ConsumingConnector__init__ self0 item))
| reach_step self self' :
    reachable self -> step self self' -> reachable self'.

(** What holds of the connector after every operation. *)
Definition connector_inv (self : Connector) : Prop :=
  (∀ r, Bunch.consumer (channel_amqp self) = Some r → is_Some (heap self !! r)) ∧
  (Bunch.is_active (channel_amqp self) = true →
   ∃ r c, Bunch.consumer (channel_amqp self) = Some r ∧
          heap self !! r = Some c ∧
          bound_to c (channel_amqp self) ∧
          ConsumingConnection.closed c = false).

(** ** Concrete data for the examples *)

Definition orders_item : Item.t :=
  {| Item.id := 1; Item.name := "orders-channel"; Item.is_active := true;
     Item.queue := "orders"; Item.consumer_tag_prefix := "zato";
     Item.service_name := "svc.orders" |}.

Definition blank_connector : Connector :=
  {| channel_id := 1; amqp_conn_params := "amqp://localhost"; logger_trace1 := false;
     rid_calls := 0; channel_amqp := Bunch.of_item orders_item; heap := [] |}.

(** The connector right after start-up on the [orders] channel. *)
Definition orders_connector : Connector :=
  state_of (ConsumingConnector__init__ blank_connector orders_item).

(** The same connector once the consumer's thread has its connection
    open. *)
Definition orders_connector_open : Connector :=
  thread_sets_conn 0 {| is_open := true |} orders_connector.

Definition edit_orders_v2 : Msg.t :=
  {| Msg.action := "EDIT"; Msg.id := 1; Msg.name := "orders-channel";
     Msg.is_active := true; Msg.queue := "orders_v2";
     Msg.consumer_tag_prefix := "zato"; Msg.service := "svc.orders" |}.

Definition edit_orders_off : Msg.t :=
  {| Msg.action := "EDIT"; Msg.id := 1; Msg.name := "orders-channel";
     Msg.is_active := false; Msg.queue := "orders_v2";
     Msg.consumer_tag_prefix := "zato"; Msg.service := "svc.orders" |}.

Definition edit_other_channel : Msg.t :=
  {| Msg.action := "EDIT"; Msg.id := 2; Msg.name := "invoices-channel";
     Msg.is_active := true; Msg.queue := "invoices";
     Msg.consumer_tag_prefix := "zato"; Msg.service := "svc.invoices" |}.

Definition example_host : Host :=
  {| host_ip := "10.0.0.7"; host_fqdn := "esb1.example.com"; host_pid := 4242 |}.

Definition long_host : Host :=
  {| host_ip := "192.168.100.200";
     host_fqdn := "connector-node-17.integration.eu-west.example.com";
     host_pid := 31337 |}.

(** ** The rest of the module *)

Section ChannelOpen.
Context {U CB : Type}.
Variable _conn_info : ConsumingConnection.t CB -> string.
(** [super(ConsumingConnection, self)._on_channel_open(channel)], of the
    base class. *)
Variable super_on_channel_open : ConsumingConnection.t CB -> nat -> M U unit.

(** [_on_channel_open]: the base class records the channel, then the
    consumer subscribes, with no argument given to [consume].  [host]
    and [getrandbits64] are what the system answers during [consume]. *)
Definition _on_channel_open (self : ConsumingConnection.t CB) (channel : nat)
    (host : Host) (getrandbits64 : N) : M U unit :=
  super_on_channel_open self channel ;;;
  ConsumingConnection.consume _conn_info self host getrandbits64 None None.
End ChannelOpen.

Definition ENV_ITEM_NAME : string := "ZATO_CONNECTOR_AMQP_CHANNEL_ID".

(** [os.environ[key]]: a missing key raises [KeyError]. *)
Definition environ_get {S} (environ : gmap string string) (key : string) : M S string :=
  match environ !! key with
  | Some v => ret v
  | None => raise ("KeyError: " +:+ key)
  end.

Section RunConnector.
Context {S : Type}.
(** [setup_logging()], of the package. *)
Variable setup_logging : M S unit.
(** [ConsumingConnector(repo_location, def_id, item_id)]. *)
Variable new_connector : string -> string -> string -> M S unit.

Definition run_connector (environ : gmap string string) : M S unit :=
  setup_logging ;;;
  repo_location <- environ_get environ "ZATO_REPO_LOCATION" ;;
  def_id <- environ_get environ "ZATO_CONNECTOR_AMQP_DEF_ID" ;;
  item_id <- environ_get environ ENV_ITEM_NAME ;;
  new_connector repo_location def_id item_id ;;;
  emit (EvLog "debug"
    ("Starting AMQP consuming connector, repo_location [" +:+ repo_location +:+
     "], item_id [" +:+ item_id +:+ "], def_id [" +:+ def_id +:+ "]")).
End RunConnector.

(** The variables [run_connector] reads, in the order it reads them. *)
Definition run_connector_keys : list string :=
  ["ZATO_REPO_LOCATION"; "ZATO_CONNECTOR_AMQP_DEF_ID"; ENV_ITEM_NAME].

(** The first of them the environment lacks. *)
Definition first_missing (environ : gmap string string) : option string :=
  List.find (λ key, bool_decide (environ !! key = None)) run_connector_keys.

(** Create or Edit instructions applied one after the other, with nothing
    else happening in between. *)
Definition apply_all (msgs : list Msg.t) (self : Connector) : Connector :=
  foldl (λ s msg, state_of (_channel_amqp_create_edit msg [] s)) self msgs.

(** What a consumer is bound to for its whole life. *)
Definition binding (c : Consumer) : string * string * string * string :=
  (ConsumingConnection.conn_params c, ConsumingConnection.channel_name c,
   ConsumingConnection.queue c, ConsumingConnection.consumer_tag_prefix c).

Definition long_item : Item.t :=
  {| Item.id := 9; Item.name := "audit-channel"; Item.is_active := true;
     Item.queue := "audit"; Item.consumer_tag_prefix := "zato-audit-consumer";
     Item.service_name := "svc.audit" |}.

Definition full_environ : gmap string string :=
  <["ZATO_REPO_LOCATION" := "/opt/zato/repo"]>
    (<["ZATO_CONNECTOR_AMQP_DEF_ID" := "3"]>
       (<["ZATO_CONNECTOR_AMQP_CHANNEL_ID" := "1"]> ∅)).

(** * Properties *)

(** ** Strings *)

Lemma length_fill n c : String.length (fill n c) = n.
Proof. induction n as [|n IH]; simpl; [done | by rewrite IH]. Qed.

Lemma length_append (s t : string) :
  String.length (s +:+ t) = (String.length s + String.length t)%nat.
Proof.
  induction s as [|a s IH]; [done|].
  change (S (String.length (s +:+ t)) = S (String.length s + String.length t)).
  by rewrite IH.
Qed.

Lemma append_empty_r (s : string) : s +:+ "" = s.
Proof.
  induction s as [|a s IH]; [done|].
  change (String a (s +:+ "") = String a s). by rewrite IH.
Qed.

Lemma ljust_fill s width c :
  ljust s width c = s +:+ fill (width - String.length s) c.
Proof.
  unfold ljust. case_decide as Hw; [|done].
  replace (width - String.length s)%nat with 0%nat by lia.
  cbn [fill]. by rewrite append_empty_r.
Qed.

Lemma length_ljust s width c :
  String.length (ljust s width c) = (width `max` String.length s)%nat.
Proof. rewrite ljust_fill, length_append, length_fill. lia. Qed.

(** ** The consumer: acknowledgement and consumer tag *)

Section ConsumingConnectionProperties.
Context {U CB : Type}.
Variable invoke : CB -> MethodFrame -> HeaderFrame -> string -> M U unit.
Variable _conn_info : ConsumingConnection.t CB -> string.

(** C1.  On a delivery the callback runs first, on the state the
    delivery finds; when it returns, exactly one acknowledgement of the
    delivery's tag follows everything the callback did; when it raises,
    the exception propagates and nothing follows: no acknowledgement is
    issued. *)
Theorem on_basic_consume_ack_gating
    (self : ConsumingConnection.t CB) (channel : nat) (method_frame : MethodFrame)
    (header_frame : HeaderFrame) (body : string) (u : U) :
  let cb := invoke (ConsumingConnection.callback self) method_frame header_frame body u in
  let run := ConsumingConnection._on_basic_consume invoke self channel
               method_frame header_frame body u in
  state_of run = state_of cb ∧
  match result_of cb with
  | Ok _ =>
      result_of run = Ok tt ∧
      events_of run = events_of cb ++ [EvBasicAck channel (delivery_tag method_frame)] ∧
      acks (events_of run) = acks (events_of cb) ++ [(channel, delivery_tag method_frame)]
  | Raise x =>
      result_of run = Raise x ∧
      events_of run = events_of cb ∧
      acks (events_of run) = acks (events_of cb)
  end.
Proof.
  intros cb run. subst cb run.
  unfold ConsumingConnection._on_basic_consume, bind, emit.
  destruct (invoke _ _ _ _ u) as [[[[]|x] u'] evs]; simpl.
  - unfold acks. rewrite omap_app. done.
  - done.
Qed.

(** C9, as amended.  The tag [consume] subscribes with is the prefix,
    the host's IP, its fully qualified name, the process id and the
    random value joined by [:] and padded with [0] up to 72 characters:
    it is 72 characters long when the joined text is at most that long,
    and as long as the joined text otherwise. *)
Theorem consume_tag_padded
    (self : ConsumingConnection.t CB) (host : Host) (rnd : N)
    (queue' prefix' : option string) (u : U) :
  let prefix := or_else prefix' (ConsumingConnection.consumer_tag_prefix self) in
  let joined := format_tag prefix (host_ip host) (host_fqdn host) (host_pid host) rnd in
  let tag := consumer_tag prefix (host_ip host) (host_fqdn host) (host_pid host) rnd in
  (∃ line, events_of (ConsumingConnection.consume _conn_info self host rnd queue' prefix' u)
           = [EvBasicConsume (or_else queue' (ConsumingConnection.queue self)) tag; line]) ∧
  joined = prefix +:+ ":" +:+ host_ip host +:+ ":" +:+ host_fqdn host +:+ ":" +:+
           pretty (host_pid host) +:+ ":" +:+ pretty rnd ∧
  tag = joined +:+ fill (72 - String.length joined) "0"%char ∧
  String.length tag = (72 `max` String.length joined)%nat.
Proof.
  intros prefix joined tag. subst prefix joined tag. split; [|split; [|split]].
  - eexists. reflexivity.
  - reflexivity.
  - unfold consumer_tag. apply ljust_fill.
  - unfold consumer_tag. apply length_ljust.
Qed.
End ConsumingConnectionProperties.

(** C9, as stated, fails: two subscription attempts whose tags differ in
    length, the second host's name alone taking the tag past 72
    characters. *)
Lemma consumer_tags_differ_in_length :
  String.length (consumer_tag "zato" (host_ip example_host) (host_fqdn example_host)
                   (host_pid example_host) 18446744073709551615) = 72%nat ∧
  String.length (consumer_tag "zato" (host_ip long_host) (host_fqdn long_host)
                   (host_pid long_host) 18446744073709551615) = 97%nat ∧
  String.length (consumer_tag "zato" (host_ip example_host) (host_fqdn example_host)
                   (host_pid example_host) 18446744073709551615) ≠
  String.length (consumer_tag "zato" (host_ip long_host) (host_fqdn long_host)
                   (host_pid long_host) 18446744073709551615).
Proof. split_and!; vm_compute; [reflexivity|reflexivity|discriminate]. Qed.

(** ** The connector: what each operation computes *)

Lemma stop_target_Some self r :
  stop_target self = Some r ↔
  Bunch.consumer (channel_amqp self) = Some r ∧
  ∃ c, heap self !! r = Some c ∧ stoppable c = true.
Proof.
  unfold stop_target, consumer_obj.
  destruct (Bunch.consumer (channel_amqp self)) as [r'|].
  - destruct (heap self !! r') as [c|] eqn:Hc.
    + destruct (stoppable c) eqn:Hs; split.
      * intros [= <-]. eauto.
      * by intros [[= <-] _].
      * done.
      * intros [[= <-] (c' & Hc' & Hs')]. congruence.
    + split; [done|]. intros [[= <-] (c' & Hc' & _)]. congruence.
  - split; [done|]. by intros [? _].
Qed.

Lemma stop_run_none self :
  stop_target self = None → _stop_amqp_connection self = (Ok tt, self, []).
Proof.
  unfold stop_target, _stop_amqp_connection, bind, get.
  destruct (Bunch.consumer (channel_amqp self)) as [r|]; [|done].
  destruct (consumer_obj self) as [c|]; [|done].
  by destruct (stoppable c).
Qed.

Lemma stop_run_some self r c :
  Bunch.consumer (channel_amqp self) = Some r →
  heap self !! r = Some c →
  stoppable c = true →
  _stop_amqp_connection self =
    (Ok tt, set_heap (<[r := ConsumingConnection.close c]> (heap self)) self, [EvClose r]).
Proof.
  intros Hr Hc Hs.
  unfold _stop_amqp_connection, consumer_obj, bind, get. rewrite Hr, Hc, Hs.
  unfold consumer_close, bind, get. by rewrite Hc.
Qed.

Lemma stop_cases self :
  (stop_target self = None ∧ _stop_amqp_connection self = (Ok tt, self, [])) ∨
  (∃ r c, stop_target self = Some r ∧
          Bunch.consumer (channel_amqp self) = Some r ∧
          heap self !! r = Some c ∧ stoppable c = true ∧
          _stop_amqp_connection self =
            (Ok tt, set_heap (<[r := ConsumingConnection.close c]> (heap self)) self,
             [EvClose r])).
Proof.
  destruct (stop_target self) as [r|] eqn:Ht.
  - right. apply stop_target_Some in Ht as (Hr & c & Hc & Hs).
    exists r, c. split_and!; try done. by apply stop_run_some.
  - left. split; [done|]. by apply stop_run_none.
Qed.

Lemma stop_ok self : result_of (_stop_amqp_connection self) = Ok tt.
Proof. destruct (stop_cases self) as [[_ ->]|(r & c & _ & _ & _ & _ & ->)]; done. Qed.

Lemma stop_channel_amqp self :
  channel_amqp (state_of (_stop_amqp_connection self)) = channel_amqp self.
Proof. destruct (stop_cases self) as [[_ ->]|(r & c & _ & _ & _ & _ & ->)]; done. Qed.

Lemma stop_heap_length self :
  length (heap (state_of (_stop_amqp_connection self))) = length (heap self).
Proof.
  destruct (stop_cases self) as [[_ ->]|(r & c & _ & _ & _ & _ & ->)]; [done|].
  simpl. by rewrite length_insert.
Qed.

Lemma stop_events self :
  events_of (_stop_amqp_connection self) =
    match stop_target self with Some r => [EvClose r] | None => [] end.
Proof.
  destruct (stop_cases self) as [[-> ->]|(r & c & -> & _ & _ & _ & ->)]; done.
Qed.

(** The consumer object [_amqp_consumer] builds for the channel [b]. *)
Lemma recreate_run self :
  let s1 := state_of (_stop_amqp_connection self) in
  let e1 := events_of (_stop_amqp_connection self) in
  let new := length (heap s1) in
  let consumer :=
    ConsumingConnection.__init__ (amqp_conn_params s1)
      (Bunch.name (channel_amqp s1)) (Bunch.queue (channel_amqp s1))
      (Bunch.consumer_tag_prefix (channel_amqp s1)) self_on_amqp_message in
  _recreate_amqp_consumer self =
    if Bunch.is_active (channel_amqp s1)
    then (Ok tt,
          set_channel_amqp (Bunch.set_consumer (Some new) (channel_amqp s1))
            (set_heap (heap s1 ++ [consumer]) s1),
          e1 ++ [EvThreadStart new])
    else (Ok tt, s1, e1).
Proof.
  intros s1 e1 new consumer. subst s1 e1 new consumer.
  unfold _recreate_amqp_consumer. unfold bind at 1.
  pose proof (stop_ok self) as Hok.
  unfold result_of, state_of, events_of in *.
  destruct (_stop_amqp_connection self) as [[res s1] e1]. simpl in *. subst res.
  unfold bind at 1. unfold get at 1.
  destruct (Bunch.is_active (channel_amqp s1)); simpl.
  - done.
  - by rewrite app_nil_r.
Qed.

Lemma create_edit_run msg args self :
  let self1 :=
    set_channel_amqp
      (Bunch.set_consumer (Bunch.consumer (channel_amqp self)) (Bunch.of_msg msg)) self in
  _channel_amqp_create_edit msg args self =
    (result_of (_recreate_amqp_consumer self1),
     state_of (_recreate_amqp_consumer self1),
     [EvAcquire def_amqp_lock; EvAcquire channel_amqp_lock] ++
     events_of (_recreate_amqp_consumer self1) ++
     [EvRelease channel_amqp_lock; EvRelease def_amqp_lock]).
Proof.
  intros self1. subst self1.
  unfold _channel_amqp_create_edit, with_lock, bind, get, put. simpl.
  destruct (_recreate_amqp_consumer _) as [[res s] e]. simpl.
  by rewrite <- !app_assoc.
Qed.

Lemma setup_amqp_run self :
  _setup_amqp self =
    (result_of (_recreate_amqp_consumer self),
     state_of (_recreate_amqp_consumer self),
     [EvAcquire out_amqp_lock; EvAcquire def_amqp_lock] ++
     events_of (_recreate_amqp_consumer self) ++
     [EvRelease def_amqp_lock; EvRelease out_amqp_lock]).
Proof.
  unfold _setup_amqp, with_lock.
  destruct (_recreate_amqp_consumer self) as [[res s] e]. simpl.
  by rewrite <- !app_assoc.
Qed.

Lemma stoppable_spec (c : Consumer) :
  stoppable c = true ↔
  ∃ k, ConsumingConnection.conn c = Some k ∧ is_open k = true.
Proof.
  unfold stoppable. destruct (ConsumingConnection.conn c) as [k|].
  - split; [eauto|]. by intros (k' & [= <-] & ?).
  - split; [done|]. by intros (k' & ? & _).
Qed.

Lemma stoppable_close (c : Consumer) : stoppable (ConsumingConnection.close c) = false.
Proof.
  unfold ConsumingConnection.close, stoppable.
  destruct (ConsumingConnection.conn c) as [[[]]|] eqn:Hc; simpl; by rewrite ?Hc.
Qed.

Lemma closed_close (c : Consumer) :
  stoppable c = true → ConsumingConnection.closed (ConsumingConnection.close c) = true.
Proof.
  unfold ConsumingConnection.close, stoppable.
  by destruct (ConsumingConnection.conn c) as [[[]]|].
Qed.

Lemma no_active_consumer_stop_target self :
  no_active_consumer self → stop_target self = None.
Proof.
  unfold no_active_consumer, stop_target, stoppable.
  intros [H|(c & H & [Hc|Hc])]; rewrite H.
  - by destruct (Bunch.consumer _).
  - rewrite Hc. by destruct (Bunch.consumer _).
  - rewrite Hc. by destruct (Bunch.consumer _).
Qed.

Lemma recreate_events self :
  events_of (_recreate_amqp_consumer self) =
    match stop_target self with Some r => [EvClose r] | None => [] end ++
    if Bunch.is_active (channel_amqp self) then [EvThreadStart (length (heap self))] else [].
Proof.
  rewrite recreate_run. rewrite stop_channel_amqp, stop_heap_length, stop_events.
  destruct (Bunch.is_active (channel_amqp self)); [done|]. by rewrite app_nil_r.
Qed.

Lemma recreate_ok self : result_of (_recreate_amqp_consumer self) = Ok tt.
Proof. rewrite recreate_run. by destruct (Bunch.is_active _). Qed.

(** Stopping twice is stopping once, whatever the state. *)
Lemma stop_idempotent self :
  (_stop_amqp_connection ;;; _stop_amqp_connection) self = _stop_amqp_connection self.
Proof.
  unfold bind.
  destruct (stop_cases self) as [[Ht ->]|(r & c & Ht & Hr & Hc & Hs & ->)].
  - by rewrite (stop_run_none self Ht).
  - rewrite stop_run_none; [done|].
    match goal with |- ?t = None => destruct t as [r'|] eqn:Ht'; [|done] end.
    apply stop_target_Some in Ht' as (Hr' & c' & Hc' & Hs').
    cbn [set_heap heap channel_amqp] in Hr', Hc'.
    assert (r' = r) as -> by congruence.
    rewrite list_lookup_insert_eq in Hc' by (by eapply lookup_lt_Some).
    injection Hc' as <-. by rewrite stoppable_close in Hs'.
Qed.

(** ** The connector: stopping the consumer *)

(** C6.  With no consumer to stop (none was ever created, or the
    connection of the one referred to is absent or not open), stopping
    returns normally, leaves the connector as it was and performs
    nothing; stopping again changes nothing either. *)
Theorem stop_without_consumer_is_noop (self : Connector) :
  no_active_consumer self →
  _stop_amqp_connection self = (Ok tt, self, []) ∧
  (_stop_amqp_connection ;;; _stop_amqp_connection) self = _stop_amqp_connection self.
Proof.
  intros H. split; [|apply stop_idempotent].
  by apply stop_run_none, no_active_consumer_stop_target.
Qed.

Lemma stop_without_consumer_is_noop_witness :
  _stop_amqp_connection orders_connector = (Ok tt, orders_connector, []) ∧
  (_stop_amqp_connection ;;; _stop_amqp_connection) orders_connector
    = _stop_amqp_connection orders_connector.
Proof.
  apply (stop_without_consumer_is_noop orders_connector).
  right. eexists. split; [reflexivity|]. left. reflexivity.
Defined.

(** C10.  Stopping calls [close()] on a consumer exactly when the
    connector refers to it, its connection object is present and that
    connection is open, and then once; in every other case nothing is
    touched.  So rebuilding never closes a consumer whose connection is
    absent or not open: that consumer is left as it is. *)
Theorem stop_closes_only_open_consumer (self : Connector) :
  (∀ r, EvClose r ∈ events_of (_stop_amqp_connection self) ↔
        Bunch.consumer (channel_amqp self) = Some r ∧
        ∃ c k, heap self !! r = Some c ∧ ConsumingConnection.conn c = Some k ∧
               is_open k = true) ∧
  (∀ r, EvClose r ∈ events_of (_stop_amqp_connection self) →
        events_of (_stop_amqp_connection self) = [EvClose r]) ∧
  ((∀ r, EvClose r ∉ events_of (_stop_amqp_connection self)) →
   _stop_amqp_connection self = (Ok tt, self, [])) ∧
  (∀ r c, heap self !! r = Some c → stoppable c = false →
          (EvClose r ∉ events_of (_recreate_amqp_consumer self)) ∧
          heap (state_of (_recreate_amqp_consumer self)) !! r = Some c).
Proof.
  assert (Hin : ∀ r, EvClose r ∈ events_of (_stop_amqp_connection self) ↔
                     stop_target self = Some r).
  { intros r. rewrite stop_events. destruct (stop_target self) as [r'|].
    - rewrite list_elem_of_singleton. split; congruence.
    - split; [by intros ?%elem_of_nil | done]. }
  split_and!.
  - intros r. rewrite Hin, stop_target_Some. split.
    + intros (Hr & c & Hc & (k & Hk & Ho)%stoppable_spec). eauto 6.
    + intros (Hr & c & k & Hc & Hk & Ho). split; [done|].
      exists c. split; [done|]. apply stoppable_spec. eauto.
  - intros r Hr. apply Hin in Hr. by rewrite stop_events, Hr.
  - intros Hno. apply stop_run_none.
    destruct (stop_target self) as [r|] eqn:Ht; [|done].
    exfalso. by apply (Hno r), Hin.
  - intros r c Hc Hs.
    assert (Hne : stop_target self ≠ Some r).
    { intros (_ & c' & Hc' & Hs')%stop_target_Some. congruence. }
    split.
    + rewrite recreate_events. intros [Hr|Hr]%elem_of_app.
      * destruct (stop_target self) as [r'|].
        -- apply list_elem_of_singleton in Hr. congruence.
        -- by apply elem_of_nil in Hr.
      * destruct (Bunch.is_active _).
        -- by apply list_elem_of_singleton in Hr.
        -- by apply elem_of_nil in Hr.
    + rewrite recreate_run.
      assert (Hkeep : heap (state_of (_stop_amqp_connection self)) !! r = Some c).
      { destruct (stop_cases self) as [[_ ->]|(r' & c' & Ht & _ & _ & _ & ->)]; [done|].
        simpl. rewrite list_lookup_insert_ne; [done|]. congruence. }
      destruct (Bunch.is_active _); [|done].
      simpl. by rewrite lookup_app_l by (by eapply lookup_lt_Some).
Qed.

Lemma stop_closes_only_open_consumer_witness :
  (EvClose 0 ∉ events_of (_recreate_amqp_consumer orders_connector)) ∧
  heap (state_of (_recreate_amqp_consumer orders_connector)) !! 0%nat
    = heap orders_connector !! 0%nat.
Proof.
  apply (proj2 (proj2 (proj2 (stop_closes_only_open_consumer orders_connector))) 0%nat);
    reflexivity.
Defined.

(** ** The connector: locks *)

(** C5.  The two paths that rebuild the consumer do not take the same
    locks.  A Create or Edit takes the definition lock and then the
    channel lock, and every stop and start of a consumer happens with
    both held.  The initial setup takes [out_amqp_lock] and then the
    definition lock: it never takes the channel lock, so its stops and
    starts happen without it. *)
Theorem setup_amqp_lock_trace (self : Connector) (msg : Msg.t) (args : list PyVal) :
  (events_of (_setup_amqp self) =
     [EvAcquire out_amqp_lock; EvAcquire def_amqp_lock] ++
     events_of (_recreate_amqp_consumer self) ++
     [EvRelease def_amqp_lock; EvRelease out_amqp_lock] ∧
   (EvAcquire channel_amqp_lock ∉ events_of (_setup_amqp self)) ∧
   Forall (λ locks, locks = [def_amqp_lock; out_amqp_lock])
     (held_at_lifecycle (events_of (_setup_amqp self)) [])) ∧
  (∃ evs, events_of (_channel_amqp_create_edit msg args self) =
            [EvAcquire def_amqp_lock; EvAcquire channel_amqp_lock] ++ evs ++
            [EvRelease channel_amqp_lock; EvRelease def_amqp_lock]) ∧
  Forall (λ locks, locks = [channel_amqp_lock; def_amqp_lock])
    (held_at_lifecycle (events_of (_channel_amqp_create_edit msg args self)) []).
Proof.
  split_and!.
  - by rewrite setup_amqp_run.
  - rewrite setup_amqp_run. unfold events_of at 1. simpl.
    rewrite recreate_events.
    destruct (stop_target self), (Bunch.is_active _); simpl;
      repeat (apply not_elem_of_cons; split; [discriminate|]); apply not_elem_of_nil.
  - rewrite setup_amqp_run. unfold events_of at 1. simpl.
    rewrite recreate_events.
    destruct (stop_target self), (Bunch.is_active _); simpl; repeat constructor.
  - rewrite create_edit_run. eexists. reflexivity.
  - rewrite create_edit_run. unfold events_of at 1. simpl.
    rewrite recreate_events.
    destruct (stop_target _), (Bunch.is_active _); simpl; repeat constructor.
Qed.

(** The start-up of the [orders] connector, step by step. *)
Example setup_amqp_orders_trace :
  events_of (ConsumingConnector__init__ blank_connector orders_item) =
    [EvAcquire out_amqp_lock; EvAcquire def_amqp_lock; EvThreadStart 0;
     EvRelease def_amqp_lock; EvRelease out_amqp_lock].
Proof. reflexivity. Qed.

(** ** The connector: control instructions and forwarding *)

Section ConnectorProperties.
Variables AMQP_EDIT AMQP_DELETE AMQP_MESSAGE_RECEIVED : string.
Variable TO_PARALLEL_PULL : string.
Variable super_filter : Connector -> Msg.t -> bool.
Variable repr_msg : Msg.t -> string.
Variable new_rid : nat -> string.
Variable send_json : gmap string PyVal -> string -> M Connector unit.
Variable _close : M Connector unit.

Local Abbreviation self_filter := (filter AMQP_EDIT AMQP_DELETE super_filter repr_msg).
Local Abbreviation forward :=
  (_on_amqp_message AMQP_MESSAGE_RECEIVED TO_PARALLEL_PULL new_rid send_json).

(** The value [filter] returns, case by case. *)
Lemma filter_result (self : Connector) (msg : Msg.t) :
  result_of (self_filter msg self) =
    Ok (if super_filter self msg then PyBool true
        else if decide (Msg.action msg = AMQP_EDIT ∨ Msg.action msg = AMQP_DELETE)
             then if decide (Bunch.id (channel_amqp self) = Msg.id msg)
                  then PyBool true else PyNone
             else PyBool false) ∧
  state_of (self_filter msg self) = self.
Proof.
  unfold filter, bind, get.
  destruct (super_filter self msg); [done|].
  assert (Hiff : Msg.action msg ∈ [AMQP_EDIT; AMQP_DELETE] ↔
                 Msg.action msg = AMQP_EDIT ∨ Msg.action msg = AMQP_DELETE).
  { rewrite elem_of_cons, list_elem_of_singleton. tauto. }
  destruct (decide (Msg.action msg ∈ [AMQP_EDIT; AMQP_DELETE])) as [Hin|Hin];
    destruct (decide (Msg.action msg = AMQP_EDIT ∨ Msg.action msg = AMQP_DELETE))
      as [Hact|Hact]; try (exfalso; tauto).
  - by destruct (decide (Bunch.id (channel_amqp self) = Msg.id msg)).
  - by destruct (logger_trace1 self).
Qed.

(** C4.  For an instruction the base filter does not accept: an Edit
    or Delete for the connector's own channel id is accepted with
    [True]; an Edit or Delete for another channel id gets a rejecting
    (falsy) value; every other action gets [False].  The connector is
    left as it was. *)
Theorem filter_own_channel_only (self : Connector) (msg : Msg.t) :
  super_filter self msg = false →
  state_of (self_filter msg self) = self ∧
  (Msg.action msg = AMQP_EDIT ∨ Msg.action msg = AMQP_DELETE →
   (Bunch.id (channel_amqp self) = Msg.id msg →
    result_of (self_filter msg self) = Ok (PyBool true)) ∧
   (Bunch.id (channel_amqp self) ≠ Msg.id msg →
    ∃ v, result_of (self_filter msg self) = Ok v ∧ truthy v = false)) ∧
  (¬ (Msg.action msg = AMQP_EDIT ∨ Msg.action msg = AMQP_DELETE) →
   result_of (self_filter msg self) = Ok (PyBool false)).
Proof.
  intros Hbase. destruct (filter_result self msg) as [Hres Hst].
  rewrite Hbase in Hres. split_and!; [done| |].
  - intros Hact. rewrite decide_True in Hres by done. split.
    + intros Hid. by rewrite decide_True in Hres.
    + intros Hid. rewrite decide_False in Hres by done. by exists PyNone.
  - intros Hact. by rewrite decide_False in Hres.
Qed.

(** C7.  The forwarder hands the broker client one message with
    exactly the keys [action], [service], [rid] and [payload]: the
    message-received action, the service of the current channel
    attributes, the id of a new call of [new_rid()] and the delivery's
    body.  It is sent as [TO_PARALLEL_PULL], and neither the header
    frame nor the method frame has any part in it. *)
Theorem on_amqp_message_event (self : Connector) (method_frame : MethodFrame)
    (header_frame : HeaderFrame) (body : string) :
  let params : gmap string PyVal :=
    <["payload" := PyStr body]>
      (<["rid" := PyStr (new_rid (rid_calls self))]>
         (<["service" := PyStr (Bunch.service (channel_amqp self))]>
            (<["action" := PyStr AMQP_MESSAGE_RECEIVED]> ∅))) in
  forward method_frame header_frame body self =
    send_json params TO_PARALLEL_PULL (set_rid_calls (S (rid_calls self)) self) ∧
  dom params = ({["action"; "service"; "rid"; "payload"]} : gset string) ∧
  params !! "action" = Some (PyStr AMQP_MESSAGE_RECEIVED) ∧
  params !! "service" = Some (PyStr (Bunch.service (channel_amqp self))) ∧
  params !! "rid" = Some (PyStr (new_rid (rid_calls self))) ∧
  params !! "payload" = Some (PyStr body) ∧
  ∀ method_frame' header_frame',
    forward method_frame' header_frame' body self =
    forward method_frame header_frame body self.
Proof.
  intros params. subst params. split_and!.
  - unfold _on_amqp_message, bind, get, put.
    by destruct (send_json _ _ _) as [[res s] e].
  - rewrite !dom_insert_L, dom_empty_L. set_solver.
  - by rewrite !lookup_insert_ne, lookup_insert_eq by done.
  - by rewrite !lookup_insert_ne, lookup_insert_eq by done.
  - by rewrite lookup_insert_ne, lookup_insert_eq by done.
  - by rewrite lookup_insert_eq.
  - done.
Qed.

(** C8.  The handlers of Create and Edit are the same operation, and so
    are the handlers of Delete and Close, on every payload and in every
    state. *)
Theorem handlers_pairwise_equal (msg : Msg.t) (args : list PyVal) (self : Connector) :
  on_broker_pull_msg_CHANNEL_AMQP_CREATE msg args self =
    on_broker_pull_msg_CHANNEL_AMQP_EDIT msg args self ∧
  on_broker_pull_msg_CHANNEL_AMQP_DELETE _close msg args self =
    on_broker_pull_msg_CHANNEL_AMQP_CLOSE _close msg args self.
Proof. split; reflexivity. Qed.
End ConnectorProperties.

Lemma filter_own_channel_only_witness :
  let flt := filter "EDIT" "DELETE" (λ _ _, false) Msg.action in
  state_of (flt edit_orders_v2 orders_connector) = orders_connector ∧
  (Msg.action edit_orders_v2 = "EDIT" ∨ Msg.action edit_orders_v2 = "DELETE" →
   (Bunch.id (channel_amqp orders_connector) = Msg.id edit_orders_v2 →
    result_of (flt edit_orders_v2 orders_connector) = Ok (PyBool true)) ∧
   (Bunch.id (channel_amqp orders_connector) ≠ Msg.id edit_orders_v2 →
    ∃ v, result_of (flt edit_orders_v2 orders_connector) = Ok v ∧ truthy v = false)) ∧
  (¬ (Msg.action edit_orders_v2 = "EDIT" ∨ Msg.action edit_orders_v2 = "DELETE") →
   result_of (flt edit_orders_v2 orders_connector) = Ok (PyBool false)).
Proof.
  apply (filter_own_channel_only "EDIT" "DELETE" (λ _ _, false) Msg.action
           orders_connector edit_orders_v2).
  reflexivity.
Defined.

(** The filter on the running [orders] connector: its own Edit passes,
    an Edit of another channel falls off the end of the function, an
    unrelated action is refused. *)
Example filter_examples :
  let flt := filter "EDIT" "DELETE" (λ _ _, false) Msg.action in
  result_of (flt edit_orders_v2 orders_connector) = Ok (PyBool true) ∧
  result_of (flt edit_other_channel orders_connector) = Ok PyNone ∧
  result_of (flt {| Msg.action := "CREATE"; Msg.id := 1; Msg.name := "";
                    Msg.is_active := true; Msg.queue := "";
                    Msg.consumer_tag_prefix := ""; Msg.service := "" |}
                 orders_connector) = Ok (PyBool false).
Proof. split_and!; reflexivity. Qed.

(** ** The connector: rebuilding the consumer *)

Lemma running_after_stop self r :
  running (state_of (_stop_amqp_connection self)) r = true ↔
  running self r = true ∧ stop_target self ≠ Some r.
Proof.
  destruct (stop_cases self) as [[Ht ->]|(rt & c & Ht & _ & Hc & Hs & ->)].
  - rewrite Ht. unfold state_of; simpl. split; [|tauto]. by intros ?.
  - rewrite Ht. unfold state_of, running; simpl.
    destruct (decide (r = rt)) as [->|Hne].
    + rewrite list_lookup_insert_eq by (by eapply lookup_lt_Some).
      rewrite (closed_close c Hs). simpl. split; [done|]. by intros [_ ?].
    + rewrite list_lookup_insert_ne by done. split; [|tauto].
      intros H. split; [done|]. congruence.
Qed.

Lemma running_after_start (s s' : Connector) (c : Consumer) r :
  heap s' = heap s ++ [c] →
  ConsumingConnection.closed c = false →
  running s' r = true ↔ r = length (heap s) ∨ running s r = true.
Proof.
  intros Hh Hc. unfold running. rewrite Hh.
  destruct (decide (r < length (heap s))%nat) as [Hlt|Hge].
  - rewrite lookup_app_l by done. split; [tauto|]. intros [->|H]; [lia|done].
  - destruct (decide (r = length (heap s))) as [->|Hne].
    + rewrite list_lookup_middle by done. rewrite Hc. simpl. tauto.
    + rewrite !lookup_ge_None_2; [|lia|rewrite length_app; simpl; lia].
      split; [done|]. intros [?|?]; done.
Qed.

Lemma create_edit_state msg args self :
  let self1 :=
    set_channel_amqp
      (Bunch.set_consumer (Bunch.consumer (channel_amqp self)) (Bunch.of_msg msg)) self in
  let s1 := state_of (_stop_amqp_connection self1) in
  stop_target self1 = stop_target self ∧
  channel_amqp s1 = channel_amqp self1 ∧
  length (heap s1) = length (heap self) ∧
  state_of (_channel_amqp_create_edit msg args self) =
    if Msg.is_active msg
    then set_channel_amqp (Bunch.set_consumer (Some (length (heap self))) (channel_amqp self1))
           (set_heap
              (heap s1 ++
               [ConsumingConnection.__init__ (amqp_conn_params self) (Msg.name msg)
                  (Msg.queue msg) (Msg.consumer_tag_prefix msg) self_on_amqp_message])
              s1)
    else s1.
Proof.
  intros self1 s1. subst s1.
  assert (Hp : amqp_conn_params (state_of (_stop_amqp_connection self1))
               = amqp_conn_params self).
  { destruct (stop_cases self1) as [[_ ->]|(r & c & _ & _ & _ & _ & ->)]; done. }
  split_and!.
  - done.
  - apply stop_channel_amqp.
  - by rewrite stop_heap_length.
  - rewrite create_edit_run. unfold state_of at 1. simpl.
    rewrite recreate_run. fold self1.
    rewrite stop_channel_amqp, stop_heap_length, Hp. simpl.
    by destruct (Msg.is_active msg).
Qed.

(** C2, as amended.  For a configuration with [is_active] set, a Create
    or Edit takes both locks, closes the consumer the connector refers
    to if that consumer's connection is open (and only then), and after
    that starts a new consumer.  Afterwards the connector refers to the
    new consumer, which is bound to the new configuration's channel
    name, queue and tag prefix and forwards to the connector, whose
    service is the new configuration's.  The consumers active afterwards
    are the new one and those active before other than the one closed: so
    the new one is the only active consumer when the only consumer
    active before was the one referred to with its connection open. *)
Theorem create_edit_active_rebuilds (self : Connector) (msg : Msg.t) (args : list PyVal) :
  Msg.is_active msg = true →
  let run := _channel_amqp_create_edit msg args self in
  let self' := state_of run in
  let new := length (heap self) in
  result_of run = Ok tt ∧
  events_of run =
    [EvAcquire def_amqp_lock; EvAcquire channel_amqp_lock] ++
    match stop_target self with Some r => [EvClose r] | None => [] end ++
    [EvThreadStart new; EvRelease channel_amqp_lock; EvRelease def_amqp_lock] ∧
  Bunch.consumer (channel_amqp self') = Some new ∧
  Bunch.queue (channel_amqp self') = Msg.queue msg ∧
  Bunch.consumer_tag_prefix (channel_amqp self') = Msg.consumer_tag_prefix msg ∧
  Bunch.service (channel_amqp self') = Msg.service msg ∧
  (∃ c, heap self' !! new = Some c ∧
        bound_to c (channel_amqp self') ∧
        ConsumingConnection.closed c = false) ∧
  (∀ r, running self' r = true ↔
        r = new ∨ (running self r = true ∧ stop_target self ≠ Some r)) ∧
  ((∀ r, running self r = true → stop_target self = Some r) →
   ∀ r, running self' r = true ↔ r = new).
Proof.
  intros Hact run self' new. subst run self' new.
  destruct (create_edit_state msg args self) as (Ht & Hb & Hl & Hst).
  rewrite Hact in Hst.
  assert (Hrun : ∀ r, running (state_of (_channel_amqp_create_edit msg args self)) r = true ↔
                      r = length (heap self) ∨
                      (running self r = true ∧ stop_target self ≠ Some r)).
  { intros r. rewrite Hst.
    etrans; [eapply running_after_start; simpl; reflexivity|].
    by rewrite Hl, running_after_stop, Ht. }
  split_and!.
  - rewrite create_edit_run. unfold result_of at 1. simpl. apply recreate_ok.
  - rewrite create_edit_run. unfold events_of at 1. simpl.
    rewrite recreate_events, Ht. simpl. rewrite Hact.
    by destruct (stop_target self).
  - by rewrite Hst.
  - by rewrite Hst.
  - by rewrite Hst.
  - by rewrite Hst.
  - rewrite Hst. simpl. eexists. split; [|split].
    + apply list_lookup_middle. by rewrite Hl.
    + done.
    + done.
  - exact Hrun.
  - intros Hall r. rewrite Hrun. split; [|tauto].
    intros [?|[Hr Hne]]; [done|]. by apply Hall in Hr.
Qed.

Lemma create_edit_active_rebuilds_witness :
  let run := _channel_amqp_create_edit edit_orders_v2 [] orders_connector_open in
  Msg.is_active edit_orders_v2 = true ∧
  result_of run = Ok tt ∧
  events_of run =
    [EvAcquire def_amqp_lock; EvAcquire channel_amqp_lock; EvClose 0; EvThreadStart 1;
     EvRelease channel_amqp_lock; EvRelease def_amqp_lock] ∧
  Bunch.consumer (channel_amqp (state_of run)) = Some 1%nat ∧
  ∀ r, running (state_of run) r = true ↔ r = 1%nat.
Proof.
  pose proof (create_edit_active_rebuilds orders_connector_open edit_orders_v2 [] eq_refl)
    as (Hok & Hev & Hc & _ & _ & _ & _ & _ & Hone).
  split; [reflexivity|]. split; [exact Hok|]. split; [exact Hev|]. split; [exact Hc|].
  apply Hone. intros r Hr. by destruct r as [|[|r]].
Defined.

(** C2, as stated, fails.  Right after start-up the connection of the
    [orders] consumer is not open yet; an Edit that arrives then does not
    stop that consumer and starts a second one, so two consumers are
    active. *)
Lemma create_edit_leaves_two_consumers :
  let run := _channel_amqp_create_edit edit_orders_v2 [] orders_connector in
  reachable orders_connector ∧
  Msg.is_active edit_orders_v2 = true ∧
  Bunch.consumer (channel_amqp orders_connector) = Some 0%nat ∧
  running orders_connector 0 = true ∧
  events_of run =
    [EvAcquire def_amqp_lock; EvAcquire channel_amqp_lock; EvThreadStart 1;
     EvRelease channel_amqp_lock; EvRelease def_amqp_lock] ∧
  active_consumers (state_of run) = [0%nat; 1%nat] ∧
  ¬ (∀ r, running (state_of run) r = true ↔ r = 1%nat).
Proof.
  split_and!; try reflexivity.
  - by apply reach_init.
  - intros H. by pose proof (proj1 (H 0%nat) eq_refl).
Qed.

(** ** The connector: what holds after every operation *)

Lemma bound_to_set_conn (c : Consumer) k b :
  bound_to c b → bound_to (ConsumingConnection.set_conn k c) b.
Proof. done. Qed.

Lemma connector_inv_init self0 item :
  heap self0 = [] →
  connector_inv (state_of (ConsumingConnector__init__ self0 item)).
Proof.
  intros Hh. unfold ConsumingConnector__init__.
  rewrite setup_amqp_run. unfold state_of at 1. simpl.
  rewrite recreate_run.
  rewrite (stop_run_none (_setup_odb item self0)) by done.
  unfold state_of, _setup_odb; simpl. rewrite Hh.
  destruct (Item.is_active item) eqn:Ha; simpl.
  - split.
    + intros r [= <-]. simpl. eauto.
    + intros _. exists 0%nat. eexists. split_and!; done.
  - split; [done|]. simpl. by rewrite Ha.
Qed.

Lemma connector_inv_create_edit msg args self :
  connector_inv self →
  connector_inv (state_of (_channel_amqp_create_edit msg args self)).
Proof.
  intros [Href Hact].
  destruct (create_edit_state msg args self) as (Ht & Hb & Hl & ->).
  destruct (Msg.is_active msg) eqn:Ha.
  - split.
    + intros r [= <-]. simpl. rewrite list_lookup_middle by (by rewrite Hl). eauto.
    + intros _. exists (length (heap self)). eexists. split; [done|]. split.
      * simpl. apply list_lookup_middle. by rewrite Hl.
      * done.
  - split.
    + rewrite Hb. simpl. intros r Hr. apply Href in Hr.
      apply lookup_lt_is_Some. rewrite Hl. by apply lookup_lt_is_Some.
    + rewrite Hb. simpl. by rewrite Ha.
Qed.

Lemma connector_inv_thread r k self :
  connector_inv self → connector_inv (thread_sets_conn r k self).
Proof.
  intros [Href Hact]. unfold thread_sets_conn.
  destruct (heap self !! r) as [c|] eqn:Hc; [|done].
  destruct (ConsumingConnection.closed c) eqn:Hcl; [done|].
  split; simpl.
  - intros r0 Hr0. apply Href in Hr0.
    apply lookup_lt_is_Some. rewrite length_insert. by apply lookup_lt_is_Some.
  - intros Ha. destruct (Hact Ha) as (r0 & c0 & Hr0 & Hc0 & Hb & Hcl0).
    exists r0. destruct (decide (r0 = r)) as [->|Hne].
    + exists (ConsumingConnection.set_conn (Some k) c).
      assert (c0 = c) as -> by congruence.
      split; [done|]. split; [|done].
      apply list_lookup_insert_eq. by eapply lookup_lt_Some.
    + exists c0. by rewrite list_lookup_insert_ne.
Qed.

(** C3, as amended.  After every operation (the initial setup, every
    Create or Edit applied, with the consumers' threads running in
    between) a consumer the connector refers to exists, and if the
    current configuration has [is_active] set, the connector refers to a
    consumer created from that configuration and not closed.  With
    [is_active] unset the initial setup leaves no consumer; a Create or
    Edit creates none and keeps the reference to the outgoing consumer,
    which it has closed if its connection was open: the consumers active
    afterwards are those active before other than the one closed. *)
Theorem connector_invariant :
  (∀ self, reachable self → connector_inv self) ∧
  (∀ self0 item, heap self0 = [] → Item.is_active item = false →
     let self' := state_of (ConsumingConnector__init__ self0 item) in
     Bunch.consumer (channel_amqp self') = None ∧ heap self' = []) ∧
  (∀ self msg args, Msg.is_active msg = false →
     let self' := state_of (_channel_amqp_create_edit msg args self) in
     Bunch.is_active (channel_amqp self') = false ∧
     Bunch.consumer (channel_amqp self') = Bunch.consumer (channel_amqp self) ∧
     length (heap self') = length (heap self) ∧
     ∀ r, running self' r = true ↔ running self r = true ∧ stop_target self ≠ Some r).
Proof.
  split_and!.
  - induction 1 as [self0 item Hh|self self' Hreach IH Hstep].
    + by apply connector_inv_init.
    + destruct Hstep as [msg args self|r k self].
      * by apply connector_inv_create_edit.
      * by apply connector_inv_thread.
  - intros self0 item Hh Ha self'. subst self'.
    unfold ConsumingConnector__init__.
    rewrite setup_amqp_run. unfold state_of at 1 3. simpl.
    rewrite recreate_run.
    rewrite (stop_run_none (_setup_odb item self0)) by done.
    unfold state_of, _setup_odb; simpl. by rewrite Ha.
  - intros self msg args Ha self'. subst self'.
    destruct (create_edit_state msg args self) as (Ht & Hb & Hl & ->).
    rewrite Ha, Hb. simpl. split_and!; try done.
    intros r. by rewrite running_after_stop, Ht.
Qed.

Lemma connector_invariant_witness :
  connector_inv orders_connector_open ∧
  (let self' := state_of (ConsumingConnector__init__ blank_connector
                            {| Item.id := 1; Item.name := "orders-channel";
                               Item.is_active := false; Item.queue := "orders";
                               Item.consumer_tag_prefix := "zato";
                               Item.service_name := "svc.orders" |}) in
   Bunch.consumer (channel_amqp self') = None ∧ heap self' = []) ∧
  (let self' := state_of (_channel_amqp_create_edit edit_orders_off []
                            orders_connector_open) in
   Bunch.is_active (channel_amqp self') = false ∧
   Bunch.consumer (channel_amqp self') = Bunch.consumer (channel_amqp orders_connector_open) ∧
   length (heap self') = length (heap orders_connector_open) ∧
   ∀ r, running self' r = true ↔
        running orders_connector_open r = true ∧
        stop_target orders_connector_open ≠ Some r).
Proof.
  destruct connector_invariant as (Hinv & Hinit & Hoff).
  split; [|split].
  - apply Hinv. apply reach_step with orders_connector.
    + by apply reach_init.
    + apply step_thread.
  - apply Hinit; reflexivity.
  - apply Hoff. reflexivity.
Defined.

(** C3, as stated, fails.  An Edit with [is_active] unset that arrives
    while the consumer's connection is not open yet leaves that consumer
    running and referred to, though it was created from the previous
    configuration; and when the connection is open the consumer is
    closed, yet the connector goes on referring to it. *)
Lemma inactive_edit_keeps_consumer :
  let early := state_of (_channel_amqp_create_edit edit_orders_off [] orders_connector) in
  let late := state_of (_channel_amqp_create_edit edit_orders_off [] orders_connector_open) in
  reachable early ∧ reachable late ∧
  Bunch.is_active (channel_amqp early) = false ∧
  Bunch.consumer (channel_amqp early) = Some 0%nat ∧
  running early 0 = true ∧
  active_consumers early = [0%nat] ∧
  (ConsumingConnection.queue <$> heap early !! 0%nat) = Some "orders" ∧
  Bunch.queue (channel_amqp early) = "orders_v2" ∧
  Bunch.is_active (channel_amqp late) = false ∧
  Bunch.consumer (channel_amqp late) = Some 0%nat ∧
  running late 0 = false.
Proof.
  assert (Hr : reachable orders_connector) by (by apply reach_init).
  split_and!; try reflexivity.
  - eapply reach_step; [exact Hr|]. apply step_create_edit.
  - eapply reach_step; [|apply step_create_edit].
    eapply reach_step; [exact Hr|]. apply step_thread.
Qed.

(** ** Deliveries on the running connector *)

(** A delivery to the [orders] consumer with a broker client that accepts
    the message: one event is forwarded, with the channel's service and
    the delivery's body, and then the delivery is acknowledged. *)
Example deliver_forwards_then_acks :
  let run := deliver "MESSAGE_RECEIVED" "TO_PARALLEL_PULL" pretty send_json_ok
               0 5 {| delivery_tag := 7 |} {| headers := [("x-trace", "abc")] |}
               "{id:42}" orders_connector in
  result_of run = Ok tt ∧
  events_of run =
    [EvSendJson (<["payload" := PyStr "{id:42}"]>
                   (<["rid" := PyStr "0"]>
                      (<["service" := PyStr "svc.orders"]>
                         (<["action" := PyStr "MESSAGE_RECEIVED"]> ∅))))
       "TO_PARALLEL_PULL";
     EvBasicAck 5 7] ∧
  acks (events_of run) = [(5%nat, 7%Z)].
Proof. split_and!; reflexivity. Qed.

(** The same delivery with a broker client that fails: the exception
    reaches the caller and the delivery is not acknowledged. *)
Example deliver_failure_is_not_acked :
  let run := deliver "MESSAGE_RECEIVED" "TO_PARALLEL_PULL" pretty
               (λ _ _, raise "ConnectionException")
               0 5 {| delivery_tag := 7 |} {| headers := [] |}
               "{id:42}" orders_connector in
  result_of run = Raise "ConnectionException" ∧
  events_of run = [] ∧
  acks (events_of run) = [].
Proof. split_and!; reflexivity. Qed.

(** * Further properties of the module *)

(** ** The consumer tag and the random value *)

Lemma append_assoc (s t u : string) : (s +:+ t) +:+ u = s +:+ (t +:+ u).
Proof.
  induction s as [|a s IH]; [done|].
  change (String a ((s +:+ t) +:+ u) = String a (s +:+ (t +:+ u))). by rewrite IH.
Qed.

Lemma pretty_N_go_append (x : N) (s : string) :
  pretty_N_go x s = pretty_N_go x "" +:+ s.
Proof.
  revert s. induction (N.lt_wf_0 x) as [x _ IH]. intros s.
  destruct (decide (x = 0)%N) as [->|Hx].
  - by rewrite !pretty_N_go_0.
  - rewrite !(pretty_N_go_step x) by lia.
    assert (Hlt : (x `div` 10 < x)%N) by (apply N.div_lt; lia).
    rewrite (IH _ Hlt (String _ s)), (IH _ Hlt (String _ "")).
    by rewrite append_assoc.
Qed.

(** Ten times a positive number prints as that number followed by [0]. *)
Lemma pretty_N_times_10 (r : N) : (0 < r)%N → pretty (10 * r)%N = pretty r +:+ "0".
Proof.
  intros Hr. unfold pretty, pretty_N.
  rewrite !decide_False by lia.
  rewrite pretty_N_go_step by lia.
  replace ((10 * r) `div` 10)%N with r by (symmetry; rewrite N.mul_comm; apply N.div_mul; lia).
  replace ((10 * r) `mod` 10)%N with 0%N
    by (symmetry; rewrite N.mul_comm; apply N.Div0.mod_mul).
  by rewrite pretty_N_go_append.
Qed.

Lemma format_tag_split (prefix ip fqdn : string) (pid rnd : N) :
  format_tag prefix ip fqdn pid rnd =
    (prefix +:+ ":" +:+ ip +:+ ":" +:+ fqdn +:+ ":" +:+ pretty pid +:+ ":") +:+ pretty rnd.
Proof. unfold format_tag. by rewrite !append_assoc. Qed.

Lemma format_tag_times_10 (prefix ip fqdn : string) (pid rnd : N) :
  (0 < rnd)%N →
  format_tag prefix ip fqdn pid (10 * rnd) = format_tag prefix ip fqdn pid rnd +:+ "0".
Proof.
  intros Hr. rewrite !format_tag_split, pretty_N_times_10 by done.
  by rewrite (append_assoc _ (pretty rnd) "0").
Qed.

(** X1.  The padding hides a trailing zero of the random value: while the
    joined text of [10 * rnd] still fits in 72 characters, the tags for
    [rnd] and for [10 * rnd] are the same text, whatever the prefix, the
    host and the process. *)
Theorem consumer_tag_collision (prefix ip fqdn : string) (pid rnd : N) :
  (0 < rnd)%N →
  (String.length (format_tag prefix ip fqdn pid (10 * rnd)) ≤ 72)%nat →
  consumer_tag prefix ip fqdn pid (10 * rnd) = consumer_tag prefix ip fqdn pid rnd ∧
  (10 * rnd)%N ≠ rnd.
Proof.
  intros Hr Hlen. split; [|lia].
  unfold consumer_tag. rewrite !ljust_fill, format_tag_times_10 by done.
  rewrite format_tag_times_10 in Hlen by done.
  rewrite length_append in Hlen. simpl in Hlen.
  rewrite length_append. simpl.
  replace (72 - String.length (format_tag prefix ip fqdn pid rnd))%nat
    with (S (72 - (String.length (format_tag prefix ip fqdn pid rnd) + 1)))%nat by lia.
  by rewrite append_assoc.
Qed.

Lemma consumer_tag_collision_witness :
  consumer_tag "zato" (host_ip example_host) (host_fqdn example_host)
    (host_pid example_host) (10 * 1844674407370955161)
  = consumer_tag "zato" (host_ip example_host) (host_fqdn example_host)
    (host_pid example_host) 1844674407370955161 ∧
  (10 * 1844674407370955161)%N ≠ 1844674407370955161%N.
Proof.
  apply (consumer_tag_collision "zato" (host_ip example_host) (host_fqdn example_host)
           (host_pid example_host) 1844674407370955161).
  - reflexivity.
  - vm_compute. lia.
Defined.

(** X2.  Without padding the random value does tell tags apart: two
    subscription attempts of one consumer on one host and process whose
    joined texts are 72 characters or longer get different tags for
    different random values. *)
Theorem consumer_tag_distinct_when_long (prefix ip fqdn : string) (pid r1 r2 : N) :
  (72 ≤ String.length (format_tag prefix ip fqdn pid r1))%nat →
  (72 ≤ String.length (format_tag prefix ip fqdn pid r2))%nat →
  r1 ≠ r2 →
  consumer_tag prefix ip fqdn pid r1 ≠ consumer_tag prefix ip fqdn pid r2.
Proof.
  intros H1 H2 Hne Heq. apply Hne.
  unfold consumer_tag, ljust in Heq. rewrite !decide_True in Heq by done.
  rewrite !format_tag_split in Heq.
  apply String.app_inj in Heq. by apply pretty_N_inj in Heq.
Qed.

Lemma consumer_tag_distinct_when_long_witness :
  consumer_tag "zato" (host_ip long_host) (host_fqdn long_host) (host_pid long_host) 1
  ≠ consumer_tag "zato" (host_ip long_host) (host_fqdn long_host) (host_pid long_host) 2.
Proof.
  apply (consumer_tag_distinct_when_long "zato" (host_ip long_host) (host_fqdn long_host)
           (host_pid long_host) 1 2).
  - vm_compute. lia.
  - vm_compute. lia.
  - discriminate.
Defined.

(** ** The consumer: opening the channel *)

Section ChannelOpenProperties.
Context {U CB : Type}.
Variable _conn_info : ConsumingConnection.t CB -> string.
Variable super_on_channel_open : ConsumingConnection.t CB -> nat -> M U unit.

(** X3.  When the channel opens and the base class accepts it, the
    consumer subscribes once, to its own queue, with a tag of at least 72
    characters built from its own prefix; the debug line that follows
    names the queue as [None], the argument [consume] was not given.  When
    the base class raises, the exception propagates and nothing is
    subscribed. *)
Theorem on_channel_open_subscribes (self : ConsumingConnection.t CB) (channel : nat)
    (host : Host) (rnd : N) (u : U) :
  let base := super_on_channel_open self channel u in
  let run := _on_channel_open _conn_info super_on_channel_open self channel host rnd u in
  let tag := consumer_tag (ConsumingConnection.consumer_tag_prefix self)
               (host_ip host) (host_fqdn host) (host_pid host) rnd in
  state_of run = state_of base ∧
  match result_of base with
  | Ok _ =>
      result_of run = Ok tt ∧
      events_of run =
        events_of base ++
        [EvBasicConsume (ConsumingConnection.queue self) tag;
         EvLog "debug" ("Started a consumer for [" +:+ _conn_info self +:+
                        "], queue [None], tag [" +:+ tag +:+ "]")] ∧
      (72 ≤ String.length tag)%nat
  | Raise x =>
      result_of run = Raise x ∧ events_of run = events_of base
  end.
Proof.
  intros base run tag. subst base run tag.
  unfold _on_channel_open, bind.
  destruct (super_on_channel_open self channel u) as [[[[]|x] u'] evs];
    unfold state_of, result_of, events_of; simpl; [|done].
  split_and!; try done.
  unfold consumer_tag. rewrite length_ljust. lia.
Qed.
End ChannelOpenProperties.

(** ** Start-up from the environment *)

Section RunConnectorProperties.
Context {S : Type}.
Variable setup_logging : M S unit.
Variable new_connector : string -> string -> string -> M S unit.

(** X4.  [run_connector] reads three variables of the environment.  If
    one is missing it raises [KeyError] for the first one missing, in the
    order repository location, definition id, channel id, and no
    connector is built.  With all three present it builds the connector
    from the repository location, the definition id and the channel id,
    in that order, and then writes its debug line. *)
Theorem run_connector_environment (environ : gmap string string) (s : S) :
  result_of (setup_logging s) = Ok tt →
  match first_missing environ with
  | Some key =>
      run_connector setup_logging new_connector environ s =
        (Raise ("KeyError: " +:+ key), state_of (setup_logging s),
         events_of (setup_logging s))
  | None =>
      ∃ repo_location def_id item_id,
        environ !! "ZATO_REPO_LOCATION" = Some repo_location ∧
        environ !! "ZATO_CONNECTOR_AMQP_DEF_ID" = Some def_id ∧
        environ !! "ZATO_CONNECTOR_AMQP_CHANNEL_ID" = Some item_id ∧
        run_connector setup_logging new_connector environ s =
          (setup_logging ;;;
           new_connector repo_location def_id item_id ;;;
           emit (EvLog "debug"
             ("Starting AMQP consuming connector, repo_location [" +:+ repo_location +:+
              "], item_id [" +:+ item_id +:+ "], def_id [" +:+ def_id +:+ "]"))) s
  end.
Proof.
  intros Hlog.
  unfold first_missing, run_connector_keys, run_connector, ENV_ITEM_NAME,
    bind, environ_get, raise, ret, emit, result_of, state_of, events_of in *.
  destruct (setup_logging s) as [[res s1] e1]. simpl in *. subst res.
  destruct (environ !! "ZATO_REPO_LOCATION") as [repo|]; simpl;
    [|by rewrite app_nil_r].
  destruct (environ !! "ZATO_CONNECTOR_AMQP_DEF_ID") as [def|]; simpl;
    [|by rewrite app_nil_r].
  destruct (environ !! "ZATO_CONNECTOR_AMQP_CHANNEL_ID") as [item|]; simpl;
    [|by rewrite app_nil_r].
  exists repo, def, item. split_and!; try done.
  by destruct (new_connector repo def item s1) as [[[[]|x] s2] e2].
Qed.
End RunConnectorProperties.

Lemma run_connector_environment_witness :
  ∃ repo_location def_id item_id,
    full_environ !! "ZATO_REPO_LOCATION" = Some repo_location ∧
    full_environ !! "ZATO_CONNECTOR_AMQP_DEF_ID" = Some def_id ∧
    full_environ !! "ZATO_CONNECTOR_AMQP_CHANNEL_ID" = Some item_id ∧
    run_connector (ret tt) (λ _ _ _, ret tt) full_environ tt =
      (ret tt ;;; (λ _ _ _, ret tt) repo_location def_id item_id ;;;
       emit (EvLog "debug"
         ("Starting AMQP consuming connector, repo_location [" +:+ repo_location +:+
          "], item_id [" +:+ item_id +:+ "], def_id [" +:+ def_id +:+ "]"))) tt.
Proof.
  apply (run_connector_environment (ret tt) (λ _ _ _, ret tt) full_environ tt).
  reflexivity.
Defined.

(** Without the definition id the start-up stops at that variable. *)
Example run_connector_missing_def_id :
  run_connector (ret tt) (λ _ _ _, emit (EvThreadStart 0))
    (delete "ZATO_CONNECTOR_AMQP_DEF_ID" full_environ) tt =
    (Raise "KeyError: ZATO_CONNECTOR_AMQP_DEF_ID", tt, []).
Proof. reflexivity. Qed.

(** ** The connector: what stopping and rebuilding leave alone *)

Lemma list_insert_alter_Some {A} (f : A → A) (l : list A) (i : nat) (x : A) :
  l !! i = Some x → <[i := f x]> l = alter f i l.
Proof.
  revert i. induction l as [|a l IH]; intros [|i] Hi; try done.
  - by injection Hi as ->.
  - simpl in *. f_equal. by apply IH.
Qed.

(** The connector after [_stop_amqp_connection]: the consumer stopped,
    if any, is closed; everything else is as before. *)
Lemma stop_state self :
  state_of (_stop_amqp_connection self) =
    set_heap (match stop_target self with
              | Some r => alter ConsumingConnection.close r (heap self)
              | None => heap self
              end) self.
Proof.
  destruct (stop_cases self) as [[-> ->]|(r & c & -> & _ & Hc & _ & ->)].
  - by destruct self.
  - unfold state_of; simpl. f_equal. by apply list_insert_alter_Some.
Qed.

(** X5.  Stopping changes one thing at most: the consumer the connector
    refers to is closed when its connection is open.  The channel
    attributes, the other fields of the connector and every other
    consumer stay as they were, and afterwards there is nothing left to
    stop. *)
Theorem stop_changes_only_the_target (self : Connector) :
  let self' := state_of (_stop_amqp_connection self) in
  self' = set_heap (match stop_target self with
                    | Some r => alter ConsumingConnection.close r (heap self)
                    | None => heap self
                    end) self ∧
  stop_target self' = None.
Proof.
  intros self'. subst self'. split; [apply stop_state|].
  pose proof (stop_idempotent self) as Hid. unfold bind in Hid.
  pose proof (stop_ok self) as Hok. unfold result_of, state_of in *.
  destruct (_stop_amqp_connection self) as [[res s1] e1]. simpl in *. subst res.
  destruct (stop_target s1) as [r|] eqn:Ht; [|done].
  apply stop_target_Some in Ht as (Hr & c & Hc & Hs).
  rewrite (stop_run_some s1 r c Hr Hc Hs) in Hid.
  injection Hid as _ He. apply (f_equal length) in He.
  rewrite length_app in He. simpl in He. lia.
Qed.

(** X6.  A Create or Edit replaces the channel attributes wholesale by
    the message's; of the old ones only the consumer reference survives,
    and only when the message has [is_active] unset.  The connector's
    other fields, [channel_id] among them, are not touched, and the store
    changes in two places at most: the consumer stopped is closed and,
    with [is_active] set, one new consumer is added at the end. *)
Theorem create_edit_replaces_configuration (self : Connector) (msg : Msg.t)
    (args : list PyVal) :
  state_of (_channel_amqp_create_edit msg args self) =
    {| channel_id := channel_id self;
       amqp_conn_params := amqp_conn_params self;
       logger_trace1 := logger_trace1 self;
       rid_calls := rid_calls self;
       channel_amqp :=
         {| Bunch.id := Msg.id msg; Bunch.name := Msg.name msg;
            Bunch.is_active := Msg.is_active msg; Bunch.queue := Msg.queue msg;
            Bunch.consumer_tag_prefix := Msg.consumer_tag_prefix msg;
            Bunch.service := Msg.service msg;
            Bunch.consumer :=
              if Msg.is_active msg then Some (length (heap self))
              else Bunch.consumer (channel_amqp self) |};
       heap :=
         match stop_target self with
         | Some r => alter ConsumingConnection.close r (heap self)
         | None => heap self
         end ++
         if Msg.is_active msg
         then [ConsumingConnection.__init__ (amqp_conn_params self) (Msg.name msg)
                 (Msg.queue msg) (Msg.consumer_tag_prefix msg) self_on_amqp_message]
         else [] |}.
Proof.
  destruct (create_edit_state msg args self) as (Ht & Hb & Hl & ->).
  rewrite stop_state, Ht.
  unfold set_channel_amqp, set_heap, Bunch.set_consumer, Bunch.of_msg.
  destruct (Msg.is_active msg); simpl; [done|].
  by rewrite app_nil_r.
Qed.

(** ** The connector: instructions one after the other *)

Lemma create_edit_active_facts self msg args :
  Msg.is_active msg = true →
  let s1 := state_of (_channel_amqp_create_edit msg args self) in
  length (heap s1) = S (length (heap self)) ∧
  (∀ r, running s1 r = true ↔
        r = length (heap self) ∨ (running self r = true ∧ stop_target self ≠ Some r)) ∧
  stop_target s1 = None.
Proof.
  intros Hact s1. subst s1.
  destruct (create_edit_state msg args self) as (Ht & Hb & Hl & Hst).
  rewrite Hact in Hst. split_and!.
  - rewrite Hst. simpl. rewrite length_app, Hl. simpl. lia.
  - intros r. rewrite Hst.
    etrans; [eapply running_after_start; simpl; reflexivity|].
    by rewrite Hl, running_after_stop, Ht.
  - rewrite Hst. unfold stop_target, consumer_obj. simpl.
    rewrite list_lookup_middle by (by rewrite Hl). done.
Qed.

(** X7.  Edits that arrive in a row pile consumers up.  From a connector
    with nothing to stop (no consumer yet, or one whose connection is not
    open), every Create or Edit with [is_active] set applied before any
    connection opens starts one more consumer and stops none: afterwards
    all the consumers that were active still are, and so is every one of
    the new ones. *)
Theorem edits_in_a_row_pile_up (msgs : list Msg.t) (self : Connector) :
  stop_target self = None →
  Forall (λ msg, Msg.is_active msg = true) msgs →
  let self' := apply_all msgs self in
  length (heap self') = (length (heap self) + length msgs)%nat ∧
  stop_target self' = None ∧
  ∀ r, running self' r = true ↔
       running self r = true ∨ (length (heap self) ≤ r < length (heap self'))%nat.
Proof.
  revert self. induction msgs as [|msg msgs IH]; intros self Ht Hall self'; subst self'.
  - simpl. split_and!; [lia|done|]. intros r. split; [tauto|]. intros [?|?]; [done|lia].
  - apply Forall_cons in Hall as [Hact Hall].
    destruct (create_edit_active_facts self msg [] Hact) as (Hl & Hrun & Ht1).
    simpl. destruct (IH _ Ht1 Hall) as (Hl' & Ht' & Hrun').
    change (foldl _ ?s msgs) with (apply_all msgs s) in *.
    split_and!.
    + rewrite Hl', Hl. simpl. lia.
    + exact Ht'.
    + intros r. rewrite Hrun', Hrun, Ht, Hl. split.
      * intros [[->|[? _]]|?]; [right|tauto|right]; rewrite Hl', Hl; lia.
      * intros [Hr|Hr]; [left; right; split; [done|discriminate]|].
        rewrite Hl', Hl in Hr.
        destruct (decide (r = length (heap self))) as [->|Hne]; [tauto|].
        right. rewrite Hl', Hl. lia.
Qed.

Lemma edits_in_a_row_pile_up_witness :
  let self' := apply_all [edit_orders_v2; edit_orders_v2; edit_other_channel]
                 orders_connector in
  length (heap self') = (length (heap orders_connector) + 3)%nat ∧
  stop_target self' = None ∧
  ∀ r, running self' r = true ↔
       running orders_connector r = true ∨
       (length (heap orders_connector) ≤ r < length (heap self'))%nat.
Proof.
  apply (edits_in_a_row_pile_up [edit_orders_v2; edit_orders_v2; edit_other_channel]
           orders_connector).
  - reflexivity.
  - repeat constructor.
Defined.

(** X8.  Start-up on a channel with [is_active] set, from a connector
    without consumers: it succeeds and leaves exactly one consumer, built
    from the row of the database (its name, queue and tag prefix, the
    connector's connection parameters and forwarder), not connected yet,
    active, and referred to by the channel attributes, whose service is
    the row's [service_name]. *)
Theorem startup_on_active_channel (self0 : Connector) (item : Item.t) :
  heap self0 = [] →
  Item.is_active item = true →
  let run := ConsumingConnector__init__ self0 item in
  result_of run = Ok tt ∧
  heap (state_of run) =
    [ConsumingConnection.__init__ (amqp_conn_params self0) (Item.name item)
       (Item.queue item) (Item.consumer_tag_prefix item) self_on_amqp_message] ∧
  channel_amqp (state_of run) = Bunch.set_consumer (Some 0%nat) (Bunch.of_item item) ∧
  Bunch.service (channel_amqp (state_of run)) = Item.service_name item ∧
  stop_target (state_of run) = None ∧
  ∀ r, running (state_of run) r = true ↔ r = 0%nat.
Proof.
  intros Hh Ha run. subst run. unfold ConsumingConnector__init__.
  rewrite setup_amqp_run. unfold result_of at 1, state_of at 1 2 3 4 5. simpl.
  rewrite recreate_ok, recreate_run.
  rewrite (stop_run_none (_setup_odb item self0)) by done.
  unfold state_of, _setup_odb; simpl. rewrite Ha, Hh. simpl.
  split_and!; try done.
  intros [|[|r]]; unfold running; simpl; split; (done || lia).
Qed.

Lemma startup_on_active_channel_witness :
  let run := ConsumingConnector__init__ blank_connector long_item in
  result_of run = Ok tt ∧
  heap (state_of run) =
    [ConsumingConnection.__init__ (amqp_conn_params blank_connector) (Item.name long_item)
       (Item.queue long_item) (Item.consumer_tag_prefix long_item) self_on_amqp_message] ∧
  channel_amqp (state_of run) = Bunch.set_consumer (Some 0%nat) (Bunch.of_item long_item) ∧
  Bunch.service (channel_amqp (state_of run)) = Item.service_name long_item ∧
  stop_target (state_of run) = None ∧
  ∀ r, running (state_of run) r = true ↔ r = 0%nat.
Proof.
  apply (startup_on_active_channel blank_connector long_item); reflexivity.
Defined.

Lemma binding_close (c : Consumer) :
  binding (ConsumingConnection.close c) = binding c ∧
  (ConsumingConnection.closed c = true →
   ConsumingConnection.closed (ConsumingConnection.close c) = true).
Proof.
  unfold ConsumingConnection.close.
  by destruct (ConsumingConnection.conn c) as [[[]]|].
Qed.

Lemma step_keeps_consumers self self' r c :
  step self self' →
  heap self !! r = Some c →
  ∃ c', heap self' !! r = Some c' ∧ binding c' = binding c ∧
        (ConsumingConnection.closed c = true → ConsumingConnection.closed c' = true).
Proof.
  intros [msg args s|r0 k s] Hc.
  - destruct (create_edit_state msg args s) as (Ht & Hb & Hl & ->).
    assert (Hstop : ∃ c', heap (state_of (_stop_amqp_connection
                (set_channel_amqp
                   (Bunch.set_consumer (Bunch.consumer (channel_amqp s))
                      (Bunch.of_msg msg)) s))) !! r = Some c' ∧
              binding c' = binding c ∧
              (ConsumingConnection.closed c = true →
               ConsumingConnection.closed c' = true)).
    { rewrite stop_state, Ht. simpl.
      destruct (stop_target s) as [rt|]; [|eauto].
      destruct (decide (rt = r)) as [->|Hne].
      - rewrite list_lookup_alter_eq, Hc. simpl.
        eexists. split; [done|]. apply binding_close.
      - rewrite list_lookup_alter_ne by done. eauto. }
    destruct Hstop as (c' & Hc' & Hbind & Hcl).
    exists c'. split; [|done].
    destruct (Msg.is_active msg); [|done].
    simpl. by rewrite lookup_app_l by (by eapply lookup_lt_Some).
  - unfold thread_sets_conn.
    destruct (heap s !! r0) as [c0|] eqn:Hc0; [|eauto].
    destruct (ConsumingConnection.closed c0) eqn:Hcl0; [eauto|].
    simpl. destruct (decide (r0 = r)) as [->|Hne].
    + rewrite list_lookup_insert_eq by (by eapply lookup_lt_Some).
      assert (c0 = c) as -> by congruence. eauto.
    + rewrite list_lookup_insert_ne by done. eauto.
Qed.

(** X9.  Whatever instructions are applied and whatever the threads do
    in between, a consumer once created stays in the store, bound to the
    connection parameters, channel name, queue and tag prefix it was
    created with: an Edit never rebinds an existing consumer.  A consumer
    once closed stays closed. *)
Theorem consumers_keep_their_binding (self self' : Connector) (r : ref) (c : Consumer) :
  rtc step self self' →
  heap self !! r = Some c →
  ∃ c', heap self' !! r = Some c' ∧ binding c' = binding c ∧
        (ConsumingConnection.closed c = true → ConsumingConnection.closed c' = true).
Proof.
  intros Hsteps. revert c. induction Hsteps as [s|s1 s2 s3 Hstep _ IH]; intros c Hc.
  - eauto.
  - destruct (step_keeps_consumers _ _ _ _ Hstep Hc) as (c2 & Hc2 & Hb2 & Hcl2).
    destruct (IH _ Hc2) as (c3 & Hc3 & Hb3 & Hcl3).
    exists c3. split; [done|]. split; [congruence|tauto].
Qed.

Lemma consumers_keep_their_binding_witness :
  ∃ c', heap (state_of (_channel_amqp_create_edit edit_orders_v2 []
                          orders_connector_open)) !! 0%nat = Some c' ∧
        binding c' = binding (ConsumingConnection.__init__ "amqp://localhost"
                                "orders-channel" "orders" "zato" self_on_amqp_message) ∧
        (false = true → ConsumingConnection.closed c' = true).
Proof.
  apply (consumers_keep_their_binding orders_connector _ 0%nat
           (ConsumingConnection.__init__ "amqp://localhost" "orders-channel" "orders"
              "zato" self_on_amqp_message)).
  - eapply rtc_l; [apply (step_thread 0 {| is_open := true |})|].
    eapply rtc_l; [apply (step_create_edit edit_orders_v2 [])|].
    apply rtc_refl.
  - reflexivity.
Defined.

(** ** The connector: the filter and the forwarder after an instruction *)

Section ConnectorCompositions.
Variables AMQP_EDIT AMQP_DELETE AMQP_MESSAGE_RECEIVED : string.
Variable TO_PARALLEL_PULL : string.
Variable super_filter : Connector -> Msg.t -> bool.
Variable repr_msg : Msg.t -> string.
Variable new_rid : nat -> string.
Variable send_json : gmap string PyVal -> string -> M Connector unit.

Local Abbreviation self_filter := (filter AMQP_EDIT AMQP_DELETE super_filter repr_msg).
Local Abbreviation self_deliver :=
  (deliver AMQP_MESSAGE_RECEIVED TO_PARALLEL_PULL new_rid send_json).

(** X10.  The filter's decision and its trace, whole.  A message passes
    exactly when the base filter accepts it or it is an Edit or Delete
    for the id of the current channel attributes.  The connector is never
    changed.  The trace line is written only for a message that is
    neither accepted by the base filter nor an Edit or Delete, and only
    with TRACE1 enabled: an Edit or Delete for another channel is turned
    down without a line. *)
Theorem filter_decision_and_trace (self : Connector) (msg : Msg.t) :
  let run := self_filter msg self in
  let edit_or_delete := Msg.action msg = AMQP_EDIT ∨ Msg.action msg = AMQP_DELETE in
  state_of run = self ∧
  (∃ v, result_of run = Ok v ∧
        (truthy v = true ↔
         super_filter self msg = true ∨
         (edit_or_delete ∧ Bunch.id (channel_amqp self) = Msg.id msg))) ∧
  events_of run =
    if negb (super_filter self msg) && negb (bool_decide edit_or_delete) &&
       logger_trace1 self
    then [EvLog "TRACE1" ("Returning False for msg [" +:+ repr_msg msg +:+ "]")]
    else [].
Proof.
  intros run edit_or_delete. subst run edit_or_delete.
  unfold filter, bind, get, ret, emit, state_of, result_of, events_of.
  assert (Hiff : Msg.action msg ∈ [AMQP_EDIT; AMQP_DELETE] ↔
                 Msg.action msg = AMQP_EDIT ∨ Msg.action msg = AMQP_DELETE).
  { rewrite elem_of_cons, list_elem_of_singleton. tauto. }
  destruct (super_filter self msg); simpl.
  { split_and!; try done. exists (PyBool true). split; [done|]. simpl. tauto. }
  destruct (decide (Msg.action msg ∈ [AMQP_EDIT; AMQP_DELETE])) as [Hin|Hin].
  - rewrite bool_decide_eq_true_2 by tauto. simpl.
    destruct (decide (Bunch.id (channel_amqp self) = Msg.id msg)) as [Hid|Hid]; simpl.
    + split_and!; try done. exists (PyBool true). split; [done|]. simpl. tauto.
    + split_and!; try done. exists PyNone. split; [done|]. simpl.
      split; [done|]. intros [?|[_ ?]]; done.
  - rewrite bool_decide_eq_false_2 by tauto. simpl.
    destruct (logger_trace1 self); simpl.
    + split_and!; try done. exists (PyBool false). split; [done|]. simpl.
      split; [done|]. intros [?|[? _]]; [done|tauto].
    + split_and!; try done. exists (PyBool false). split; [done|]. simpl.
      split; [done|]. intros [?|[? _]]; [done|tauto].
Qed.

(** X11.  The id the filter compares with is the one of the last message
    applied, not the [channel_id] the connector was started with: after a
    Create or Edit, an Edit or Delete the base filter does not accept
    passes exactly when its id is the id of the message applied, while
    [channel_id] is still what it was. *)
Theorem filter_follows_last_message (self : Connector) (msg : Msg.t) (args : list PyVal)
    (next : Msg.t) :
  let self' := state_of (_channel_amqp_create_edit msg args self) in
  super_filter self' next = false →
  Msg.action next = AMQP_EDIT ∨ Msg.action next = AMQP_DELETE →
  channel_id self' = channel_id self ∧
  ∃ v, result_of (self_filter next self') = Ok v ∧
       (truthy v = true ↔ Msg.id next = Msg.id msg).
Proof.
  intros self' Hbase Hact.
  assert (Hid : Bunch.id (channel_amqp self') = Msg.id msg ∧
                channel_id self' = channel_id self).
  { subst self'. destruct (create_edit_state msg args self) as (_ & Hb & _ & ->).
    rewrite stop_state in *.
    destruct (Msg.is_active msg); done. }
  destruct Hid as [Hid Hch]. split; [done|].
  destruct (filter_result AMQP_EDIT AMQP_DELETE super_filter repr_msg self' next)
    as [Hres _].
  rewrite Hbase, decide_True in Hres by done. rewrite Hid in Hres.
  destruct (decide (Msg.id msg = Msg.id next)) as [Heq|Hne].
  - exists (PyBool true). split; [done|]. simpl. split; congruence.
  - exists PyNone. split; [done|]. simpl. split; [done|congruence].
Qed.

(** X12.  A delivery is forwarded under the service of the channel
    attributes current when it arrives.  After a Create or Edit, a
    delivery to a consumer that was created before it (and that the
    instruction did not stop) is forwarded with the new message's
    service, and acknowledged when the broker client returns normally. *)
Theorem delivery_uses_current_service (self : Connector) (msg : Msg.t) (args : list PyVal)
    (r : ref) (channel : nat) (method_frame : MethodFrame) (header_frame : HeaderFrame)
    (body : string) :
  let self' := state_of (_channel_amqp_create_edit msg args self) in
  is_Some (heap self !! r) →
  ∃ params : gmap string PyVal,
    params !! "service" = Some (PyStr (Msg.service msg)) ∧
    params !! "payload" = Some (PyStr body) ∧
    self_deliver r channel method_frame header_frame body self' =
      (send_json params TO_PARALLEL_PULL ;;;
       emit (EvBasicAck channel (delivery_tag method_frame)))
        (set_rid_calls (S (rid_calls self)) self').
Proof.
  intros self' Hr.
  assert (Hfacts : Bunch.service (channel_amqp self') = Msg.service msg ∧
                   rid_calls self' = rid_calls self ∧
                   (length (heap self) ≤ length (heap self'))%nat).
  { subst self'. destruct (create_edit_state msg args self) as (_ & Hb & Hl & ->).
    rewrite stop_state in *.
    destruct (Msg.is_active msg); simpl in *; split_and!; try done.
    - rewrite length_app. lia.
    - lia. }
  destruct Hfacts as (Hsvc & Hrid & Hlen).
  assert (Hr' : is_Some (heap self' !! r)).
  { apply lookup_lt_is_Some. apply lookup_lt_is_Some in Hr. lia. }
  destruct Hr' as [c' Hc'].
  exists (<["payload" := PyStr body]>
            (<["rid" := PyStr (new_rid (rid_calls self))]>
               (<["service" := PyStr (Msg.service msg)]>
                  (<["action" := PyStr AMQP_MESSAGE_RECEIVED]> ∅)))).
  split_and!.
  - by rewrite !lookup_insert_ne, lookup_insert_eq by done.
  - by rewrite lookup_insert_eq.
  - unfold deliver, bind at 1, get. rewrite Hc'.
    unfold ConsumingConnection._on_basic_consume, invoke.
    destruct (ConsumingConnection.callback c').
    unfold _on_amqp_message, bind, get, put, emit. rewrite Hsvc, Hrid. simpl.
    by destruct (send_json _ _ _) as [[[[]|x] s2] e2].
Qed.
End ConnectorCompositions.

Lemma filter_follows_last_message_witness :
  let self' := state_of (_channel_amqp_create_edit edit_other_channel []
                           orders_connector) in
  channel_id self' = channel_id orders_connector ∧
  ∃ v, result_of (filter "EDIT" "DELETE" (λ _ _, false) Msg.action
                    edit_orders_v2 self') = Ok v ∧
       (truthy v = true ↔ Msg.id edit_orders_v2 = Msg.id edit_other_channel).
Proof.
  apply (filter_follows_last_message "EDIT" "DELETE" (λ _ _, false) Msg.action
           orders_connector edit_other_channel [] edit_orders_v2).
  - reflexivity.
  - left. reflexivity.
Defined.

Lemma delivery_uses_current_service_witness :
  let self' := state_of (_channel_amqp_create_edit edit_other_channel []
                           orders_connector) in
  ∃ params : gmap string PyVal,
    params !! "service" = Some (PyStr (Msg.service edit_other_channel)) ∧
    params !! "payload" = Some (PyStr "{id:42}") ∧
    deliver "MESSAGE_RECEIVED" "TO_PARALLEL_PULL" pretty send_json_ok
      0 5 {| delivery_tag := 7 |} {| headers := [] |} "{id:42}" self' =
      (send_json_ok params "TO_PARALLEL_PULL" ;;; emit (EvBasicAck 5 7))
        (set_rid_calls (S (rid_calls orders_connector)) self').
Proof.
  apply (delivery_uses_current_service "MESSAGE_RECEIVED" "TO_PARALLEL_PULL" pretty
           send_json_ok orders_connector edit_other_channel [] 0 5
           {| delivery_tag := 7 |} {| headers := [] |} "{id:42}").
  eexists. reflexivity.
Defined.
